(** * deposito_bancario.py: the account core [ContaBancaria]

    A shallow embedding of [src/deposito_bancario.py] and the properties of
    its specification.

    The class keeps its money in Python [decimal.Decimal] values and relies on
    the default arithmetic context of the [decimal] module (28 significant
    digits, ROUND_HALF_EVEN, Emax = 999999, Emin = -999999, traps on
    InvalidOperation, DivisionByZero and Overflow).  The first part of the
    file models the fragment of that library the class uses: construction
    from a string, [<=], [>], [+=], [-=] and the [.2f] format, with the
    limits the C implementation of the module puts on the exponent a
    constructor reads and on the digits a format writes.  The second part
    embeds the class, method by method, in a state-and-exception monad, and
    after it the shell [SistemaBancario] that drives it from the keyboard.

    Conventions.
    - A Python [str] is a [string]; each [ascii] stands for the code point of
      the same number, so the strings of the model are the Python strings
      over U+0000..U+00FF.
    - [datetime.now()] is an input: [depositar] and [sacar] take the
      timestamp text they would read from the clock.
    - A message returned to the caller is a value of [Mensagem], one
      constructor per message template of the source, carrying the values the
      f-string interpolates.  In the methods of the account an
      interpolation [{d:.2f}] is evaluated where the source evaluates it,
      and raises there when [Decimal.__format__] does.  The shell formats
      one amount of its own, the limit of the account it created, 500.
    - An argument that is not a [str] is given by the text [str(valor)]
      returns for it; a call of [str] that itself raises is outside the
      model, as is running out of memory (a format of more digits than the
      machine can hold raises MemoryError before the limit of the library
      is reached).
    - No text, and no coefficient, has as many as 10^17 digits: where a limit
      of the library counts the digits of a coefficient, the model counts
      at most that many. *)

From Stdlib Require Import ZArith NArith QArith List String Ascii Bool Lia.
From Stdlib Require Import DecimalString.
Import ListNotations.

Local Open Scope Z_scope.

(* ================================================================== *)
(** ** The [decimal] module *)
(* ================================================================== *)

Module PyDecimal.

(** A [Decimal] is a sign, a coefficient and an exponent, or one of the
    special values.  [Finite s c e] is (-1)^s * c * 10^e; the library stores
    the coefficient as its digit string [_int]. *)
Inductive Decimal : Type :=
| Finite (sign : bool) (coef : N) (exp : Z)
| Infinity (sign : bool)
| NaN (sign : bool) (signaling : bool) (diag : N).

(** The signals of the default context that are trapped, hence raised as
    Python exceptions, and that the operations below can produce. *)
Inductive Signal : Type :=
| InvalidOperation
| Overflow.

(** The default context. *)
Definition prec : Z := 28.
Definition Emax : Z := 999999.
Definition Emin : Z := -999999.
Definition Etiny : Z := Emin - prec + 1.
Definition Etop : Z := Emax - prec + 1.

(** The limits of the C implementation of the module on a 64-bit machine:
    the largest precision and exponent of any context, and the smallest
    exponent of a subnormal in the widest one. *)
Definition MAX_PREC : Z := 999999999999999999.
Definition MAX_EMAX : Z := 999999999999999999.
Definition MIN_ETINY : Z := -1999999999999999997.

(** [len(str(n))] for a coefficient [n >= 0]. *)
Fixpoint ndigits_aux (fuel : nat) (n : Z) : Z :=
  match fuel with
  | O => 1
  | S f => if n <? 10 then 1 else 1 + ndigits_aux f (n / 10)
  end.

Definition ndigits (n : Z) : Z := ndigits_aux (Z.to_nat (Z.log2 n)) n.

(** The digits of a coefficient as the limits of the library count them. *)
Definition digits (c : N) : Z := Z.min (ndigits (Z.of_N c)) (10 ^ 17).

(** Dropping the last [k] digits of [c] under ROUND_HALF_EVEN. *)
Definition round_half_even (c k : Z) : Z :=
  let p := 10 ^ k in
  let q := c / p in
  let r := c mod p in
  if (2 * r >? p) || ((2 * r =? p) && Z.odd q) then q + 1 else q.

Definition signed (s : bool) (c : N) : Z :=
  if s then - Z.of_N c else Z.of_N c.

Definition is_nan (d : Decimal) : bool :=
  match d with NaN _ _ _ => true | _ => false end.

(** [Decimal._fix_nan]: a diagnostic longer than the precision keeps its
    last [prec] digits. *)
Definition _fix_nan (d : Decimal) : Decimal :=
  match d with
  | NaN s sig diag =>
      if ndigits (Z.of_N diag) >? prec
      then NaN s sig (Z.to_N (Z.of_N diag mod 10 ^ prec))
      else d
  | _ => d
  end.

(** [Decimal._fix]: round a result to the context.  A zero only has its
    exponent clamped; a non-zero value whose adjusted exponent is above
    [Emax] overflows; a coefficient with more than [prec] digits (or below
    [Etiny]) is rounded half-even, and a round-up to [10^prec] is shortened
    by one digit. *)
Definition _fix (d : Decimal) : Signal + Decimal :=
  match d with
  | Finite s c e =>
      if (c =? 0)%N then
        inr (Finite s 0 (Z.min (Z.max e Etiny) Emax))
      else
        let exp_min0 := ndigits (Z.of_N c) + e - prec in
        if exp_min0 >? Etop then inl Overflow
        else
          let exp_min := Z.max exp_min0 Etiny in
          if e <? exp_min then
            let coeff := round_half_even (Z.of_N c) (exp_min - e) in
            if ndigits coeff >? prec then
              if exp_min + 1 >? Etop then inl Overflow
              else inr (Finite s (Z.to_N (coeff / 10)) (exp_min + 1))
            else inr (Finite s (Z.to_N coeff) exp_min)
          else inr d
  | Infinity _ => inr d
  | NaN _ _ _ => inr (_fix_nan d)
  end.

(** [Decimal._check_nans]: a signaling NaN raises, a quiet NaN is the
    result; [None] when neither operand is a NaN. *)
Definition _check_nans (a b : Decimal) : option (Signal + Decimal) :=
  match a, b with
  | NaN _ true _, _ => Some (inl InvalidOperation)
  | _, NaN _ true _ => Some (inl InvalidOperation)
  | NaN _ false _, _ => Some (inr (_fix_nan a))
  | _, NaN _ false _ => Some (inr (_fix_nan b))
  | _, _ => None
  end.

(** [Decimal.__add__] in the default context: the exact sum, written at the
    smaller of the two exponents, then [_fix]. *)
Definition __add__ (a b : Decimal) : Signal + Decimal :=
  match _check_nans a b with
  | Some r => r
  | None =>
      match a, b with
      | Finite s1 c1 e1, Finite s2 c2 e2 =>
          let m := Z.min e1 e2 in
          let total := signed s1 c1 * 10 ^ (e1 - m) + signed s2 c2 * 10 ^ (e2 - m) in
          let sign := if total =? 0 then s1 && s2 else total <? 0 in
          _fix (Finite sign (Z.abs_N total) m)
      | Infinity s1, Infinity s2 =>
          if Bool.eqb s1 s2 then inr a else inl InvalidOperation
      | Infinity _, _ => inr a
      | _, _ => inr b
      end
  end.

Definition copy_negate (d : Decimal) : Decimal :=
  match d with
  | Finite s c e => Finite (negb s) c e
  | Infinity s => Infinity (negb s)
  | NaN s sig diag => NaN (negb s) sig diag
  end.

(** [Decimal.__sub__]: [self + other.copy_negate()] once NaNs are handled. *)
Definition __sub__ (a b : Decimal) : Signal + Decimal :=
  match _check_nans a b with
  | Some r => r
  | None => __add__ a (copy_negate b)
  end.

(** [Decimal._cmp] on operands that are not NaN: the order of the exact
    values, with the infinities at the two ends. *)
Definition inf_rank (d : Decimal) : Z :=
  match d with
  | Infinity true => -1
  | Infinity false => 1
  | _ => 0
  end.

Definition _cmp (a b : Decimal) : comparison :=
  match a, b with
  | Finite s1 c1 e1, Finite s2 c2 e2 =>
      let m := Z.min e1 e2 in
      (signed s1 c1 * 10 ^ (e1 - m)) ?= (signed s2 c2 * 10 ^ (e2 - m))
  | _, _ => inf_rank a ?= inf_rank b
  end.

(** [__le__] and [__gt__]: an ordering comparison that involves a NaN, quiet
    or signaling, signals InvalidOperation. *)
Definition __le__ (a b : Decimal) : Signal + bool :=
  if is_nan a || is_nan b then inl InvalidOperation
  else inr (match _cmp a b with Gt => false | _ => true end).

Definition __gt__ (a b : Decimal) : Signal + bool :=
  if is_nan a || is_nan b then inl InvalidOperation
  else inr (match _cmp a b with Gt => true | _ => false end).

End PyDecimal.

(* ================================================================== *)
(** ** Python strings *)
(* ================================================================== *)

Module PyStr.

Local Open Scope string_scope.

Definition code (a : ascii) : N := N_of_ascii a.

(** [str.isspace] on one character, for the code points below 256:
    U+0009..U+000D, U+001C..U+0020, U+0085 and U+00A0. *)
Definition isspace (a : ascii) : bool :=
  let n := code a in
  ((9 <=? n) && (n <=? 13) || (28 <=? n) && (n <=? 32) || (n =? 133) || (n =? 160))%N.

(** The regular-expression class [\d], for the code points below 256. *)
Definition isdigit (a : ascii) : bool :=
  let n := code a in ((48 <=? n) && (n <=? 57))%N.

Definition digit_value (a : ascii) : N := (code a - 48)%N.

Fixpoint lstrip (s : string) : string :=
  match s with
  | EmptyString => EmptyString
  | String a r => if isspace a then lstrip r else s
  end.

Fixpoint rstrip (s : string) : string :=
  match s with
  | EmptyString => EmptyString
  | String a r =>
      match rstrip r with
      | EmptyString => if isspace a then EmptyString else String a EmptyString
      | r' => String a r'
      end
  end.

(** [s.strip()] *)
Definition strip (s : string) : string := rstrip (lstrip s).

(** [s.replace(old, new)] for a one-character [old]. *)
Fixpoint replace (old : ascii) (new : string) (s : string) : string :=
  match s with
  | EmptyString => EmptyString
  | String a r =>
      if Ascii.eqb a old then new ++ replace old new r
      else String a (replace old new r)
  end.

(** The longest prefix of digits, and what follows it. *)
Fixpoint span_digits (s : string) : string * string :=
  match s with
  | EmptyString => (EmptyString, EmptyString)
  | String a r =>
      if isdigit a then let (ds, t) := span_digits r in (String a ds, t)
      else (EmptyString, s)
  end.

(** [int(s)] for a string of digits ([0] for the empty string). *)
Fixpoint int_of_digits_acc (acc : N) (s : string) : N :=
  match s with
  | EmptyString => acc
  | String a r => int_of_digits_acc (10 * acc + digit_value a)%N r
  end.

Definition int_of_digits (s : string) : N := int_of_digits_acc 0 s.

Definition is_empty (s : string) : bool :=
  match s with EmptyString => true | _ => false end.

Definition newline : ascii := "010"%char.

(** The regular-expression anchor [$] without MULTILINE: the end of the
    string, or the position before a final newline. *)
Definition at_dollar (s : string) : bool :=
  match s with
  | EmptyString => true
  | String a EmptyString => Ascii.eqb a newline
  | _ => false
  end.

(** [re.match(r'^\d+(\.\d{1,2})?$', s)] *)
Definition re_match_valor (s : string) : bool :=
  let (ds, r) := span_digits s in
  negb (is_empty ds) &&
  (at_dollar r ||
   match r with
   | String "." r' =>
       let (fs, t) := span_digits r' in
       (1 <=? length fs)%nat && (length fs <=? 2)%nat && at_dollar t
   | _ => false
   end).

(** ASCII lower case, for the case-insensitive names of the special values. *)
Definition lower_char (a : ascii) : ascii :=
  let n := code a in
  if ((65 <=? n) && (n <=? 90))%N then ascii_of_N (n + 32) else a.

Fixpoint lower (s : string) : string :=
  match s with
  | EmptyString => EmptyString
  | String a r => String (lower_char a) (lower r)
  end.

(** [str(n)] for an [int], and for a coefficient. *)
Definition str_of_N (n : N) : string := NilZero.string_of_uint (N.to_uint n).
Definition str_of_int (z : Z) : string := NilZero.string_of_int (Z.to_int z).

Fixpoint spaces (n : nat) : string :=
  match n with
  | O => EmptyString
  | S k => String " " (spaces k)
  end.

(** The format specifications [>w] and [^w] on a string. *)
Definition rjust (w : nat) (s : string) : string :=
  spaces (w - length s) ++ s.

Definition center (w : nat) (s : string) : string :=
  let pad := (w - length s)%nat in
  spaces (Nat.div pad 2) ++ s ++ spaces (pad - Nat.div pad 2).

Fixpoint repeat_char (a : ascii) (n : nat) : string :=
  match n with
  | O => EmptyString
  | S k => String a (repeat_char a k)
  end.

End PyStr.

(* ================================================================== *)
(** ** [Decimal] and strings: the constructor and [__format__] *)
(* ================================================================== *)

Module PyDecimalStr.

Import PyDecimal PyStr.
Local Open Scope string_scope.

(** An optional sign [[-+]?]. *)
Definition split_sign (s : string) : bool * string :=
  match s with
  | String "-" r => (true, r)
  | String "+" r => (false, r)
  | _ => (false, s)
  end.

(** [(E(?P<exp>[-+]?\d+))?\Z] under IGNORECASE: the value of the exponent,
    [0] when there is none. *)
Definition parse_exponent (r : string) : option Z :=
  match r with
  | EmptyString => Some 0
  | String a r' =>
      if Ascii.eqb (lower_char a) "e" then
        let (neg, r'') := split_sign r' in
        let (ds, rest) := span_digits r'' in
        if negb (is_empty ds) && is_empty rest then
          Some (if neg then - Z.of_N (int_of_digits ds) else Z.of_N (int_of_digits ds))
        else None
      else None
  end.

(** The first alternative of the library's pattern: a number with at least
    one digit, an optional fractional part and an optional exponent. *)
Definition parse_number (r : string) : option (N * Z) :=
  let (intpart, r1) := span_digits r in
  let '(fracpart, r2) :=
    match r1 with
    | String "." t => span_digits t
    | _ => (EmptyString, r1)
    end in
  if is_empty intpart && is_empty fracpart then None
  else
    match parse_exponent r2 with
    | Some e => Some (int_of_digits (intpart ++ fracpart), e - Z.of_nat (length fracpart))
    | None => None
    end.

(** The other alternatives: [Inf(inity)?] and [s?NaN\d*]. *)
Definition parse_nan_diag (r : string) : option N :=
  let (ds, rest) := span_digits r in
  if is_empty rest then Some (int_of_digits ds) else None.

Definition parse_special (sign : bool) (r : string) : option Decimal :=
  let l := lower r in
  if (l =? "inf") || (l =? "infinity") then Some (Infinity sign)
  else
    match l with
    | String "n" (String "a" (String "n" d)) =>
        option_map (NaN sign false) (parse_nan_diag d)
    | String "s" (String "n" (String "a" (String "n" d))) =>
        option_map (NaN sign true) (parse_nan_diag d)
    | _ => None
    end.

(** The constructor converts exactly, in the widest context of the library:
    a number whose adjusted exponent is above [MAX_EMAX], or whose exponent
    is below [MIN_ETINY], is not converted (a zero counts one digit). *)
Definition exact_conversion (c : N) (e : Z) : bool :=
  ((MIN_ETINY <=? e) && (e + digits c - 1 <=? MAX_EMAX))%Z.

(** [Decimal(s)] for a [str]: [None] when the constructor signals
    ConversionSyntax, or cannot convert exactly, both of which the default
    context raises as InvalidOperation.  The string is stripped and its
    underscores removed before it is matched. *)
Definition Decimal_of_str (s : string) : option Decimal :=
  let (sign, r) := split_sign (replace "_" "" (strip s)) in
  match parse_number r with
  | Some (c, e) => if exact_conversion c e then Some (Finite sign c e) else None
  | None => parse_special sign r
  end.

(** [Decimal._rescale(exp, ROUND_HALF_EVEN)] *)
Definition _rescale (d : Decimal) (exp : Z) : Decimal :=
  match d with
  | Finite s c e =>
      if (c =? 0)%N then Finite s 0 exp
      else if e >=? exp then Finite s (c * Z.to_N (10 ^ (e - exp))) exp
      else Finite s (Z.to_N (round_half_even (Z.of_N c) (exp - e))) exp
  | _ => d
  end.

Definition two_digits (n : N) : string :=
  if (n <? 10)%N then "0" ++ str_of_N n else str_of_N n.

(** The text of [format(d, '.2f')], when there is one. *)
Definition format_2f (d : Decimal) : string :=
  match _rescale d (-2) with
  | Finite s c _ =>
      (if s then "-" else "") ++ str_of_N (c / 100) ++ "." ++ two_digits (c mod 100)
  | Infinity s => (if s then "-" else "") ++ "Infinity"
  | NaN s sig diag =>
      (if s then "-" else "") ++ (if sig then "sNaN" else "NaN")
      ++ (if (diag =? 0)%N then "" else str_of_N diag)
  end.

(** Whether the library rescales [d] to two fractional digits: a non-zero
    coefficient shifted left may take [MAX_PREC + 1] digits at most. *)
Definition formats_2f (d : Decimal) : bool :=
  match d with
  | Finite _ c e => (c =? 0)%N || (digits c + (e + 2) <=? MAX_PREC + 1)%Z
  | _ => true
  end.

(** [d.__format__('.2f')]: [None] when it raises
    [ValueError("format specification exceeds internal limits of _decimal")]. *)
Definition __format__ (d : Decimal) : option string :=
  if formats_2f d then Some (format_2f d) else None.

End PyDecimalStr.

(* ================================================================== *)
(** ** [class ContaBancaria] *)
(* ================================================================== *)

Import PyDecimal PyStr PyDecimalStr.
Local Open Scope string_scope.

(** The [tipo] of a history entry: the strings [DEPÓSITO] and [SAQUE]. *)
Inductive Tipo : Type :=
| DEPOSITO
| SAQUE.

(** One entry of [self.historico], the dict built by [_adicionar_historico]. *)
Record Operacao : Type := mkOperacao {
  data : string;
  tipo : Tipo;
  valor : Decimal
}.

(** The attributes of a [ContaBancaria]. *)
Record ContaBancaria : Type := mkConta {
  saldo : Decimal;
  limite_saque : Decimal;
  limite_saques_diarios : Z;
  numero_saques : Z;
  historico : list Operacao
}.

(** The argument of [depositar] and [sacar]: a [str], or any other object,
    which the class only observes through [str(valor)] (for an [int] or a
    [float], its usual decimal text: [-5], [10.555], [1e-05], [inf], [nan]). *)
Inductive Valor : Type :=
| VStr (s : string)
| VObj (repr : string).

Definition str (v : Valor) : string :=
  match v with VStr s => s | VObj repr => repr end.

(** The messages of the class, one constructor per template. *)
Inductive Mensagem : Type :=
| DepositoRealizado (valor_decimal : Decimal)
    (* f"Depósito de R$ {valor_decimal:.2f} realizado com sucesso!" *)
| SaqueRealizado (valor_decimal : Decimal)
    (* f"Saque de R$ {valor_decimal:.2f} realizado com sucesso!" *)
| ValorNaoPositivo
    (* "O valor deve ser positivo." *)
| LimiteSaquesExcedido (limite : Z)
    (* f"Limite de {self.limite_saques_diarios} saques diários excedido." *)
| ValorExcedeLimite (limite : Decimal)
    (* f"Valor excede o limite de saque de R$ {self.limite_saque:.2f}." *)
| SaldoInsuficiente (saldo_atual : Decimal)
    (* f"Saldo insuficiente. Saldo atual: R$ {self.saldo:.2f}." *)
| FormatoInvalido
    (* "Formato de valor inválido. Use apenas números." *)
| NumeroInvalido
    (* "Valor deve ser um número válido." *)
| ErroInesperado (e : Signal)
    (* f"Erro inesperado: {str(e)}" *)
| LimitesDeFormatacao
    (* "format specification exceeds internal limits of _decimal", the text
       of the ValueError of [Decimal.__format__] *).

(** The exceptions raised inside the methods. *)
Inductive Excecao : Type :=
| ValueError (m : Mensagem)
| DecimalException (s : Signal).

(** *** The monad of a method body

    A method body runs on the account and either returns a value or raises;
    in both cases the account is left as the body made it, as in Python,
    where an exception does not undo the assignments made before it. *)
Definition M (A : Type) : Type := ContaBancaria -> (Excecao + A) * ContaBancaria.

Definition ret {A} (a : A) : M A := fun self => (inr a, self).

Definition bind {A B} (m : M A) (k : A -> M B) : M B :=
  fun self =>
    match m self with
    | (inr a, self') => k a self'
    | (inl e, self') => (inl e, self')
    end.

Definition raise {A} (e : Excecao) : M A := fun self => (inl e, self).

Definition get : M ContaBancaria := fun self => (inr self, self).

Definition put (c : ContaBancaria) : M unit := fun _ => (inr tt, c).

(** An operation of the [decimal] module, its signal raised as an exception. *)
Definition decimal {A} (r : Signal + A) : M A :=
  match r with
  | inr a => ret a
  | inl s => raise (DecimalException s)
  end.

Notation "x <- m ;; k" := (bind m (fun x => k))
  (at level 61, m at next level, right associativity).
Notation "m ;;; k" := (bind m (fun _ => k))
  (at level 61, right associativity).

(** The interpolation [{d:.2f}] of an f-string, and [{d:>10.2f}], which
    raises when the former does. *)
Definition formatar (d : Decimal) : M string :=
  match __format__ d with
  | Some texto => ret texto
  | None => raise (ValueError LimitesDeFormatacao)
  end.

Definition formatar_10 (d : Decimal) : M string :=
  texto <- formatar d ;; ret (rjust 10 texto).

(** Assignments to the attributes of [self]. *)
Definition set_saldo (d : Decimal) : M unit :=
  self <- get ;;
  put (mkConta d (limite_saque self) (limite_saques_diarios self)
               (numero_saques self) (historico self)).

Definition set_numero_saques (n : Z) : M unit :=
  self <- get ;;
  put (mkConta (saldo self) (limite_saque self) (limite_saques_diarios self)
               n (historico self)).

Definition set_historico (h : list Operacao) : M unit :=
  self <- get ;;
  put (mkConta (saldo self) (limite_saque self) (limite_saques_diarios self)
               (numero_saques self) h).

Definition zero : Decimal := Finite false 0 0.

(** [ContaBancaria.__init__]: [None] when [Decimal(str(limite_saque))]
    raises, which the constructor does not catch. *)
Definition __init__ (limite_saque : Valor) (limite_saques_diarios : Z)
  : option ContaBancaria :=
  match Decimal_of_str (str limite_saque) with
  | Some limite => Some (mkConta (Finite false 0 (-2)) limite limite_saques_diarios 0 [])
  | None => None
  end.

(** [ContaBancaria()] with the default arguments 500 and 3. *)
Definition conta_padrao : ContaBancaria :=
  mkConta (Finite false 0 (-2)) (Finite false 500 0) 3 0 [].

(** [_validar_valor] *)
Definition _validar_valor (valor : Valor) : M Decimal :=
  valor <-
    match valor with
    | VStr s =>
        let s := replace "," "." (strip s) in
        if negb (re_match_valor s)
        then raise (ValueError FormatoInvalido)
        else ret (VStr s)
    | VObj _ => ret valor
    end ;;
  match Decimal_of_str (str valor) with
  | Some d => ret d
  | None => raise (ValueError NumeroInvalido)
  end.

(** [_adicionar_historico]; [agora] is [datetime.now().strftime(...)]. *)
Definition _adicionar_historico (agora : string) (tipo : Tipo) (valor : Decimal)
  : M unit :=
  let operacao := mkOperacao agora tipo valor in
  self <- get ;;
  set_historico (historico self ++ [operacao]).

(** The [try] block of [depositar].  The message of a [return] is built
    when the [return] is reached: the interpolation of the last line runs
    after the two assignments, still inside the [try]. *)
Definition depositar_try (agora : string) (valor : Valor) : M (bool * Mensagem) :=
  valor_decimal <- _validar_valor valor ;;
  nao_positivo <- decimal (__le__ valor_decimal zero) ;;
  if nao_positivo then ret (false, ValorNaoPositivo)
  else
    self <- get ;;
    novo_saldo <- decimal (__add__ (saldo self) valor_decimal) ;;
    set_saldo novo_saldo ;;;
    _adicionar_historico agora DEPOSITO valor_decimal ;;;
    formatar valor_decimal ;;;
    ret (true, DepositoRealizado valor_decimal).

(** The [try] block of [sacar]; each message is built where it is returned. *)
Definition sacar_try (agora : string) (valor : Valor) : M (bool * Mensagem) :=
  valor_decimal <- _validar_valor valor ;;
  nao_positivo <- decimal (__le__ valor_decimal zero) ;;
  if nao_positivo then ret (false, ValorNaoPositivo)
  else
    self <- get ;;
    if numero_saques self >=? limite_saques_diarios self
    then ret (false, LimiteSaquesExcedido (limite_saques_diarios self))
    else
      excede <- decimal (__gt__ valor_decimal (limite_saque self)) ;;
      if excede then
        formatar (limite_saque self) ;;;
        ret (false, ValorExcedeLimite (limite_saque self))
      else
        insuficiente <- decimal (__gt__ valor_decimal (saldo self)) ;;
        if insuficiente then
          formatar (saldo self) ;;;
          ret (false, SaldoInsuficiente (saldo self))
        else
          novo_saldo <- decimal (__sub__ (saldo self) valor_decimal) ;;
          set_saldo novo_saldo ;;;
          self <- get ;;
          set_numero_saques (numero_saques self + 1) ;;;
          _adicionar_historico agora SAQUE valor_decimal ;;;
          formatar valor_decimal ;;;
          ret (true, SaqueRealizado valor_decimal).

(** The two [except] clauses shared by [depositar] and [sacar]:
    [except ValueError as e: return False, str(e)] and
    [except Exception as e: return False, f"Erro inesperado: {str(e)}"]. *)
Definition try_except (body : M (bool * Mensagem))
  : ContaBancaria -> (bool * Mensagem) * ContaBancaria :=
  fun self =>
    match body self with
    | (inr r, self') => (r, self')
    | (inl (ValueError m), self') => ((false, m), self')
    | (inl (DecimalException s), self') => ((false, ErroInesperado s), self')
    end.

Definition depositar (agora : string) (valor : Valor) :=
  try_except (depositar_try agora valor).

Definition sacar (agora : string) (valor : Valor) :=
  try_except (sacar_try agora valor).

(** [obter_extrato] *)
Definition nl : string := String newline "".

Definition texto_tipo (t : Tipo) : string :=
  match t with
  | DEPOSITO => "DEP" ++ String "211" "SITO"
  | SAQUE => "SAQUE"
  end.

Definition titulo_extrato : string := "EXTRATO BANC" ++ String "193" "RIO".

Definition sem_movimentacao : string :=
  "Nenhuma movimenta" ++ String "231" (String "227" "o realizada.").

(** The line of one operation, around its formatted amount. *)
Definition linha_com (operacao : Operacao) (valor_formatado : string) : string :=
  data operacao ++ " | " ++ rjust 8 (texto_tipo (tipo operacao))
  ++ " | R$ " ++ valor_formatado ++ nl.

(** The [for] loop: the first amount that does not format ends it, and the
    method, with the [ValueError]; the method has no [try]. *)
Fixpoint laco_do_extrato (h : list Operacao) (extrato : string) : M string :=
  match h with
  | [] => ret extrato
  | operacao :: resto =>
      valor_formatado <- formatar_10 (valor operacao) ;;
      laco_do_extrato resto (extrato ++ linha_com operacao valor_formatado)
  end.

Definition obter_extrato : M string :=
  self <- get ;;
  let linha_separadora := repeat_char "=" 50 in
  let extrato := nl ++ linha_separadora ++ nl in
  let extrato := extrato ++ center 50 titulo_extrato ++ nl in
  let extrato := extrato ++ linha_separadora ++ nl in
  extrato <-
    match historico self with
    | [] => ret (extrato ++ sem_movimentacao ++ nl)
    | _ => laco_do_extrato (historico self) extrato
    end ;;
  let extrato := extrato ++ linha_separadora ++ nl in
  saldo_formatado <- formatar_10 (saldo self) ;;
  let extrato := extrato ++ "SALDO ATUAL: R$ " ++ saldo_formatado ++ nl in
  let extrato := extrato ++ "SAQUES REALIZADOS HOJE: " ++ str_of_int (numero_saques self)
                 ++ "/" ++ str_of_int (limite_saques_diarios self) ++ nl in
  let extrato := extrato ++ linha_separadora ++ nl in
  ret extrato.

(** *** Sessions: the calls a caller makes on one account *)

Inductive Chamada : Type :=
| Depositar (agora : string) (valor : Valor)
| Sacar (agora : string) (valor : Valor)
| Extrato.

Definition chamar (ch : Chamada) (self : ContaBancaria) : ContaBancaria :=
  match ch with
  | Depositar agora valor => snd (depositar agora valor self)
  | Sacar agora valor => snd (sacar agora valor self)
  | Extrato => snd (obter_extrato self)
  end.

Definition sessao (chamadas : list Chamada) (self : ContaBancaria) : ContaBancaria :=
  fold_left (fun c ch => chamar ch c) chamadas self.

(** *** The error kinds of the specification *)

Inductive Erro : Type :=
| InvalidFormat
| InvalidAmount
| DailyLimitExceeded
| PerTransactionLimitExceeded
| InsufficientFunds.

(** The kind of a failure message; the message of the catch-all [except]
    clause has no kind in the taxonomy. *)
Definition erro_de (m : Mensagem) : option Erro :=
  match m with
  | FormatoInvalido | NumeroInvalido => Some InvalidFormat
  | ValorNaoPositivo => Some InvalidAmount
  | LimiteSaquesExcedido _ => Some DailyLimitExceeded
  | ValorExcedeLimite _ => Some PerTransactionLimitExceeded
  | SaldoInsuficiente _ => Some InsufficientFunds
  | _ => None
  end.

(** *** Vocabulary of the statements *)




Definition Tipo_eqb (a b : Tipo) : bool :=
  match a, b with
  | DEPOSITO, DEPOSITO | SAQUE, SAQUE => true
  | _, _ => false
  end.

(** The amounts recorded in a history under one [tipo], in order. *)
Definition valores_de (t : Tipo) (h : list Operacao) : list Decimal :=
  map valor (filter (fun o => Tipo_eqb (tipo o) t) h).

(** A finite amount with at most two fractional digits. *)
Definition duas_casas (d : Decimal) : bool :=
  match d with
  | Finite _ _ e => (-2 <=? e)%Z
  | _ => false
  end.

(** The amount in hundredths, for an amount with at most two fractional
    digits. *)
Definition centavos (d : Decimal) : Z :=
  match d with
  | Finite s c e => signed s c * 10 ^ (e + 2)
  | _ => 0
  end.

Definition total_centavos (l : list Decimal) : Z :=
  fold_right (fun d acc => centavos d + acc) 0 l.

(** A balance the default context can hold: [+Infinity], or a non-negative
    finite value that is zero or has at most [prec] digits and an adjusted
    exponent of at most [Emax]. *)
Definition saldo_valido (d : Decimal) : Prop :=
  match d with
  | Infinity s => s = false
  | Finite s c e =>
      s = false /\
      (c = 0%N \/ (ndigits (Z.of_N c) <= prec /\ ndigits (Z.of_N c) + e - 1 <= Emax))
  | NaN _ _ _ => False
  end.

(** The format the specification asks of an amount text: one or more
    digits, optionally followed by a period and one or two digits. *)
Fixpoint so_digitos (s : string) : bool :=
  match s with
  | EmptyString => true
  | String a r => isdigit a && so_digitos r
  end.

(** Whether the last character of a string is a space character. *)
Fixpoint termina_em_espaco (s : string) : bool :=
  match s with
  | EmptyString => false
  | String a EmptyString => isspace a
  | String _ r => termina_em_espaco r
  end.

Definition formato_spec (s : string) : Prop :=
  exists ds fs : string,
    so_digitos ds = true /\ ds <> EmptyString /\ so_digitos fs = true /\
    ((fs = EmptyString /\ s = ds) \/
     ((1 <= length fs <= 2)%nat /\ s = ds ++ "." ++ fs)).

(** What a call returns and what it leaves. *)
Definition sucesso (r : (bool * Mensagem) * ContaBancaria) : bool := fst (fst r).
Definition mensagem (r : (bool * Mensagem) * ContaBancaria) : Mensagem := snd (fst r).
Definition estado (r : (bool * Mensagem) * ContaBancaria) : ContaBancaria := snd r.

(** The account a successful deposit or withdrawal of [v] leaves. *)
Definition apos_deposito (agora : string) (v novo_saldo : Decimal) (c : ContaBancaria)
  : ContaBancaria :=
  mkConta novo_saldo (limite_saque c) (limite_saques_diarios c) (numero_saques c)
          (historico c ++ [mkOperacao agora DEPOSITO v]).

Definition apos_saque (agora : string) (v novo_saldo : Decimal) (c : ContaBancaria)
  : ContaBancaria :=
  mkConta novo_saldo (limite_saque c) (limite_saques_diarios c) (numero_saques c + 1)
          (historico c ++ [mkOperacao agora SAQUE v]).

(** The line of an operation whose amount formats. *)
Definition linha_operacao (operacao : Operacao) : string :=
  linha_com operacao (rjust 10 (format_2f (valor operacao))).

(** The text of a statement around its transaction lines. *)
Definition cabecalho_extrato : string :=
  nl ++ repeat_char "=" 50 ++ nl ++ center 50 titulo_extrato ++ nl
  ++ repeat_char "=" 50 ++ nl.

Definition rodape_extrato (c : ContaBancaria) : string :=
  repeat_char "=" 50 ++ nl
  ++ "SALDO ATUAL: R$ " ++ rjust 10 (format_2f (saldo c)) ++ nl
  ++ "SAQUES REALIZADOS HOJE: " ++ str_of_int (numero_saques c)
  ++ "/" ++ str_of_int (limite_saques_diarios c) ++ nl
  ++ repeat_char "=" 50 ++ nl.

Definition corpo_extrato (h : list Operacao) : string :=
  match h with
  | [] => sem_movimentacao ++ nl
  | _ => fold_right append "" (map linha_operacao h)
  end.

(** Every amount a statement shows formats: the recorded ones and the
    balance. *)
Definition extrato_formata (c : ContaBancaria) : bool :=
  forallb (fun o => formats_2f (valor o)) (historico c) && formats_2f (saldo c).

(** A number in the range of the default context: an infinity, a zero, or a
    finite value whose adjusted exponent is at most [Emax]. *)
Definition no_alcance (d : Decimal) : Prop :=
  match d with
  | Finite _ c e => c = 0%N \/ (ndigits (Z.of_N c) + e - 1 <= Emax)%Z
  | Infinity _ => True
  | NaN _ _ _ => False
  end.

(** A finite balance: not negative, and in the range of the context. *)
Definition saldo_finito (d : Decimal) : Prop :=
  match d with
  | Finite s c e => s = false /\ (c = 0%N \/ (ndigits (Z.of_N c) + e - 1 <= Emax)%Z)
  | _ => False
  end.


(** An amount the constructor reads and [__format__] refuses, the value of
    [Decimal('1E+999999999999999999')]. *)
Definition valor_enorme : Decimal := Finite false 1 999999999999999999.

(** The counter is the number of withdrawals recorded in the history. *)
Definition conta_saques (c : ContaBancaria) : Prop :=
  numero_saques c = Z.of_nat (List.length (valores_de SAQUE (historico c))).

(** A string that does not start with a digit. *)
Definition sem_digito_inicial (r : string) : Prop :=
  match r with
  | EmptyString => True
  | String a _ => isdigit a = false
  end.

(** A text in the format of [formato_spec], from its digits. *)
Definition texto_valor (ds fs : string) : string :=
  match fs with
  | EmptyString => ds
  | _ => ds ++ "." ++ fs
  end.

(** Every recorded amount is positive. *)
Definition historico_positivo (c : ContaBancaria) : Prop :=
  Forall (fun o => __le__ (valor o) zero = inr false) (historico c).

(** In hundredths: when every recorded amount has at most two fractional
    digits and the recorded deposits total less than 10^28 hundredths, the
    balance is the deposits minus the withdrawals, written with exponent -2. *)
Definition saldo_confere (c : ContaBancaria) : Prop :=
  let dep := total_centavos (valores_de DEPOSITO (historico c)) in
  let saq := total_centavos (valores_de SAQUE (historico c)) in
  Forall (fun o => duas_casas (valor o) = true) (historico c) ->
  (dep < 10 ^ 28)%Z ->
  (0 <= saq <= dep)%Z /\ saldo c = Finite false (Z.to_N (dep - saq)) (-2).

(** What holds of an account throughout a session. *)
Definition invariante (c : ContaBancaria) : Prop :=
  saldo_valido (saldo c) /\ historico_positivo c /\ saldo_confere c.

(* ================================================================== *)
(** ** [class SistemaBancario] *)
(* ================================================================== *)

(** The shell talks to a keyboard and a screen.  What it prints is a value
    of [Impressao], one constructor per [print] or prompt of the source with
    the values its text interpolates; what [input()] does is read off a
    script of [Leitura]s, and raises [EOFError] once the script is over, as
    on a closed standard input. *)

(** [str.lower()] on one character, for the code points below 256. *)
Definition lower_latin1 (a : ascii) : ascii :=
  let n := code a in
  if ((65 <=? n) && (n <=? 90) || (192 <=? n) && (n <=? 214)
      || (216 <=? n) && (n <=? 222))%N
  then ascii_of_N (n + 32) else a.

Fixpoint str_lower (s : string) : string :=
  match s with
  | EmptyString => EmptyString
  | String a r => String (lower_latin1 a) (str_lower r)
  end.

(** One call of [input()]: a line typed, or an interrupt (KeyboardInterrupt),
    or an end of file (EOFError). *)
Inductive Leitura : Type :=
| Linha (texto : string)
| CtrlC
| CtrlD.

(** What can be raised inside the loop: the two exceptions of [input()],
    and whatever a method of the account lets through. *)
Inductive ExcecaoIO : Type :=
| KeyboardInterrupt
| EOFError
| ExcecaoDaConta (e : Excecao).

(** The emoji of [_obter_emoji]: money bag, money with wings, page, door,
    and the clipboard of the default. *)
Inductive Emoji : Type :=
| SacoDeDinheiro
| DinheiroComAsas
| Pagina
| Porta
| Prancheta.

(** The handlers bound in [menu_opcoes]. *)
Inductive Acao : Type :=
| ProcessarDeposito
| ProcessarSaque
| ProcessarExtrato
| ProcessarSaida.

(** The prompts of the three [input()] calls. *)
Inductive Pergunta : Type :=
| PerguntaOpcao
| PerguntaDeposito
| PerguntaSaque.

Inductive Impressao : Type :=
| BemVindo
    (* "=== BEM-VINDO AO SISTEMA BANCÁRIO ===\n" *)
| Regua
    (* "=" * 40 *)
| TituloMenu
    (* "           MENU PRINCIPAL" *)
| ItemMenu (codigo : string) (emoji : Emoji) (nome : string)
    (* f"[{codigo.upper()}] {emoji} {nome}" *)
| Prompt (p : Pergunta)
    (* the text [input] shows before it reads *)
| OpcaoInvalida
    (* "❌ Opção inválida! Por favor, escolha uma opção válida.\n" *)
| CanceladoPeloUsuario
    (* "\n\n👋 Operação cancelada pelo usuário. Até logo!" *)
| ErroInesperadoNoLaco (e : ExcecaoIO)
    (* f"❌ Erro inesperado: {e}\n" *)
| CabecalhoDeposito
    (* "\n💰 === DEPÓSITO ===" *)
| CabecalhoSaque
    (* "\n💸 === SAQUE ===" *)
| InfoLimitePorSaque (limite : Decimal)
    (* f"💡 Limite por saque: R$ {self.conta.limite_saque:.2f}" *)
| InfoSaquesRestantes (n : Z)
    (* f"💡 Saques restantes hoje: {limite_saques_diarios - numero_saques}" *)
| OperacaoCancelada
    (* "❌ Operação cancelada.\n" *)
| ImprimeSucesso (m : Mensagem)
    (* f"✅ {mensagem}\n" *)
| ImprimeErro (m : Mensagem)
    (* f"❌ Erro: {mensagem}\n" *)
| ImprimeExtrato (texto : string)
    (* print(self.conta.obter_extrato()) *)
| Agradecimento
    (* "\n👋 Obrigado por usar nosso sistema bancário!" *)
| SessaoEncerrada
    (* "🔒 Sessão encerrada com segurança." *).

(** A [SistemaBancario] in its world: the account, the rest of the keyboard
    script, the clock ([relogio k] is what the [k]-th reading of
    [datetime.now()] gives) and what has been printed. *)
Record Sistema : Type := mkSistema {
  conta : ContaBancaria;
  teclado : list Leitura;
  relogio : nat -> string;
  leituras_do_relogio : nat;
  tela : list Impressao
}.

(** [self.menu_opcoes], in the order of the dict. *)
Definition menu_opcoes : list (string * (string * Acao)) :=
  [("d", ("Depositar", ProcessarDeposito));
   ("s", ("Sacar", ProcessarSaque));
   ("e", ("Extrato", ProcessarExtrato));
   ("q", ("Sair", ProcessarSaida))].

(** [d.get(k)] on a dict kept as a list of pairs. *)
Fixpoint dict_get {A : Type} (k : string) (d : list (string * A)) : option A :=
  match d with
  | [] => None
  | (k', a) :: r => if String.eqb k k' then Some a else dict_get k r
  end.

(** The monad of the shell: a state-and-exception monad on [Sistema]. *)
Definition IO (A : Type) : Type := Sistema -> (ExcecaoIO + A) * Sistema.

Definition io_ret {A} (a : A) : IO A := fun s => (inr a, s).

Definition io_bind {A B} (m : IO A) (k : A -> IO B) : IO B :=
  fun s =>
    match m s with
    | (inr a, s') => k a s'
    | (inl e, s') => (inl e, s')
    end.

Notation "x <~ m ;; k" := (io_bind m (fun x => k))
  (at level 61, m at next level, right associativity).
Notation "m ;;~ k" := (io_bind m (fun _ => k))
  (at level 61, right associativity).

Definition print (p : Impressao) : IO unit :=
  fun s => (inr tt, mkSistema (conta s) (teclado s) (relogio s)
                              (leituras_do_relogio s) (tela s ++ [p])).

(** [input(prompt)] *)
Definition input (p : Pergunta) : IO string :=
  print (Prompt p) ;;~
  fun s =>
    let resto r := mkSistema (conta s) r (relogio s) (leituras_do_relogio s) (tela s) in
    match teclado s with
    | [] => (inl EOFError, s)
    | Linha texto :: r => (inr texto, resto r)
    | CtrlC :: r => (inl KeyboardInterrupt, resto r)
    | CtrlD :: r => (inl EOFError, resto r)
    end.

(** A call of a method of [self.conta] that may record a transaction: it
    reads the clock once when it records one, which for the [str] arguments
    of the shell is when it succeeds. *)
Definition chamar_conta
  (metodo : string -> Valor -> ContaBancaria -> (bool * Mensagem) * ContaBancaria)
  (v : Valor) : IO (bool * Mensagem) :=
  fun s =>
    let r := metodo (relogio s (leituras_do_relogio s)) v (conta s) in
    (inr (fst r),
     mkSistema (snd r) (teclado s) (relogio s)
               (if fst (fst r) then S (leituras_do_relogio s) else leituras_do_relogio s)
               (tela s)).

Definition ler_conta : IO ContaBancaria := fun s => (inr (conta s), s).

(** A call of [self.conta.obter_extrato()]. *)
Definition chamar_extrato : IO string :=
  fun s =>
    let r := obter_extrato (conta s) in
    (match fst r with
     | inr texto => inr texto
     | inl e => inl (ExcecaoDaConta e)
     end,
     mkSistema (snd r) (teclado s) (relogio s) (leituras_do_relogio s) (tela s)).

(** [_obter_emoji] *)
Definition _obter_emoji (codigo : string) : Emoji :=
  let emojis := [("d", SacoDeDinheiro); ("s", DinheiroComAsas);
                 ("e", Pagina); ("q", Porta)] in
  match dict_get codigo emojis with
  | Some e => e
  | None => Prancheta
  end.

(** [_exibir_menu] *)
Definition _exibir_menu : IO string :=
  print Regua ;;~
  print TituloMenu ;;~
  print Regua ;;~
  fold_left
    (fun (antes : IO unit) (item : string * (string * Acao)) =>
       let '(codigo, (nome, _)) := item in
       antes ;;~
       let emoji := _obter_emoji codigo in
       print (ItemMenu codigo emoji nome))
    menu_opcoes (io_ret tt) ;;~
  print Regua ;;~
  texto <~ input PerguntaOpcao ;;
  io_ret (strip (str_lower texto)).

(** [_processar_deposito]; the result is the truth value of what the
    handler returns ([None] for all handlers but [_processar_saida]). *)
Definition _processar_deposito : IO bool :=
  print CabecalhoDeposito ;;~
  texto <~ input PerguntaDeposito ;;
  let valor := strip texto in
  if is_empty valor then
    print OperacaoCancelada ;;~ io_ret false
  else
    r <~ chamar_conta depositar (VStr valor) ;;
    let '(sucesso, mensagem) := r in
    (if sucesso then print (ImprimeSucesso mensagem)
     else print (ImprimeErro mensagem)) ;;~
    io_ret false.

(** [_processar_saque] *)
Definition _processar_saque : IO bool :=
  print CabecalhoSaque ;;~
  c <~ ler_conta ;;
  print (InfoLimitePorSaque (limite_saque c)) ;;~
  print (InfoSaquesRestantes (limite_saques_diarios c - numero_saques c)) ;;~
  texto <~ input PerguntaSaque ;;
  let valor := strip texto in
  if is_empty valor then
    print OperacaoCancelada ;;~ io_ret false
  else
    r <~ chamar_conta sacar (VStr valor) ;;
    let '(sucesso, mensagem) := r in
    (if sucesso then print (ImprimeSucesso mensagem)
     else print (ImprimeErro mensagem)) ;;~
    io_ret false.

(** [_processar_extrato] *)
Definition _processar_extrato : IO bool :=
  texto <~ chamar_extrato ;;
  print (ImprimeExtrato texto) ;;~
  io_ret false.

(** [_processar_saida] *)
Definition _processar_saida : IO bool :=
  print Agradecimento ;;~
  print SessaoEncerrada ;;~
  io_ret true.

Definition executar_acao (funcao : Acao) : IO bool :=
  match funcao with
  | ProcessarDeposito => _processar_deposito
  | ProcessarSaque => _processar_saque
  | ProcessarExtrato => _processar_extrato
  | ProcessarSaida => _processar_saida
  end.

(** What one turn of [while True] decides. *)
Inductive Fluxo : Type :=
| Continua
| Para.

(** The [try] block of the loop of [executar]. *)
Definition corpo_do_laco : IO Fluxo :=
  opcao <~ _exibir_menu ;;
  match dict_get opcao menu_opcoes with
  | Some (nome_opcao, funcao) =>
      if String.eqb opcao "q" then
        saiu <~ executar_acao funcao ;;
        io_ret (if saiu then Para else Continua)
      else
        executar_acao funcao ;;~ io_ret Continua
  | None =>
      print OpcaoInvalida ;;~ io_ret Continua
  end.

(** One turn of the loop, with its two [except] clauses. *)
Definition iteracao (s : Sistema) : Fluxo * Sistema :=
  match corpo_do_laco s with
  | (inr f, s') => (f, s')
  | (inl KeyboardInterrupt, s') => (Para, snd (print CanceladoPeloUsuario s'))
  | (inl e, s') => (Continua, snd (print (ErroInesperadoNoLaco e) s'))
  end.

(** The loop, for at most [voltas] turns: [Para] with the system as the
    loop left it, or [Continua] with the system after [voltas] turns. *)
Fixpoint laco (voltas : nat) (s : Sistema) : Fluxo * Sistema :=
  match voltas with
  | O => (Continua, s)
  | S n =>
      match iteracao s with
      | (Para, s') => (Para, s')
      | (Continua, s') => laco n s'
      end
  end.

(** [executar] *)
Definition executar (voltas : nat) (s : Sistema) : Fluxo * Sistema :=
  laco voltas (snd (print BemVindo s)).

(** [SistemaBancario()] before a keyboard and a clock. *)
Definition sistema_novo (teclas : list Leitura) (relogio : nat -> string) : Sistema :=
  mkSistema conta_padrao teclas relogio 0 [].

(** A call the shell can make on the account: a method with a [str]
    argument that is stripped and not empty, or the statement. *)
Definition chamada_do_sistema (ch : Chamada) : Prop :=
  match ch with
  | Depositar _ (VStr s) | Sacar _ (VStr s) => s <> EmptyString /\ strip s = s
  | Extrato => True
  | _ => False
  end.

(** What [_exibir_menu] prints, the prompt included. *)
Definition tela_do_menu : list Impressao :=
  [Regua; TituloMenu; Regua;
   ItemMenu "d" SacoDeDinheiro "Depositar"; ItemMenu "s" DinheiroComAsas "Sacar";
   ItemMenu "e" Pagina "Extrato"; ItemMenu "q" Porta "Sair";
   Regua; Prompt PerguntaOpcao].

(** What a handler of an amount prints for the answer of the account. *)
Definition imprime_resposta (r : bool * Mensagem) : Impressao :=
  if fst r then ImprimeSucesso (snd r) else ImprimeErro (snd r).

(** What [_processar_saque] prints before it reads. *)
Definition tela_do_saque (c : ContaBancaria) : list Impressao :=
  [CabecalhoSaque; InfoLimitePorSaque (limite_saque c);
   InfoSaquesRestantes (limite_saques_diarios c - numero_saques c);
   Prompt PerguntaSaque].

(** What the two [except] clauses of the loop make of the end of a handler
    other than [_processar_saida]. *)
Definition apos_acao (r : (ExcecaoIO + bool) * Sistema) : Fluxo * Sistema :=
  match r with
  | (inr _, s') => (Continua, s')
  | (inl KeyboardInterrupt, s') => (Para, snd (print CanceladoPeloUsuario s'))
  | (inl e, s') => (Continua, snd (print (ErroInesperadoNoLaco e) s'))
  end.

(** What one turn of the loop can do to the system: it reads a non-empty
    prefix of what is left of the script (nothing only when the script is
    over), stops if it read an interrupt, only adds to the screen, and
    leaves the account alone or makes one call on it. *)
Definition passo_do_sistema (s : Sistema) (f : Fluxo) (s' : Sistema) : Prop :=
  relogio s' = relogio s /\
  (exists lidas,
     teclado s = (lidas ++ teclado s')%list /\
     (teclado s <> [] -> lidas <> []) /\
     (In CtrlC lidas -> f = Para)) /\
  (exists novas, tela s' = (tela s ++ novas)%list) /\
  (conta s' = conta s \/
   exists ch, chamada_do_sistema ch /\ conta s' = chamar ch (conta s)).

(** An amount as a [str] argument can give it: finite, positive, with at
    most two fractional digits. *)
Definition valor_de_texto (d : Decimal) : Prop :=
  exists coef e, d = Finite false coef e /\ (0 < coef)%N /\ (-2 <= e <= 0)%Z.

(** What holds of an account that only the shell has used. *)
Definition conta_de_sistema (c : ContaBancaria) : Prop :=
  invariante c /\
  Forall (fun o => valor_de_texto (valor o)) (historico c) /\
  (exists coef e, saldo c = Finite false coef e) /\
  (0 <= numero_saques c <= limite_saques_diarios c)%Z.

(** The screen of a loop that finds its standard input closed. *)
Fixpoint tela_sem_entrada (voltas : nat) : list Impressao :=
  match voltas with
  | O => []
  | S n => tela_do_menu ++ [ErroInesperadoNoLaco EOFError] ++ tela_sem_entrada n
  end.

(** What the shell prints about the account is read off the account. *)
Definition impressao_da_conta (c : ContaBancaria) (p : Impressao) : Prop :=
  match p with
  | InfoSaquesRestantes k => k = (limite_saques_diarios c - numero_saques c)%Z
  | InfoLimitePorSaque d => d = limite_saque c
  | _ => True
  end.

(** What a new [SistemaBancario] can show of its limits. *)
Definition impressao_plausivel (p : Impressao) : Prop :=
  match p with
  | InfoSaquesRestantes k => (0 <= k <= 3)%Z
  | InfoLimitePorSaque d => d = Finite false 500 0
  | _ => True
  end.

(* ================================================================== *)
(** ** What one call does *)
(* ================================================================== *)

(** [_validar_valor] reads neither the account nor the clock. *)
Lemma _validar_valor_estado (v : Valor) (c : ContaBancaria) :
  snd (_validar_valor v c) = c.
Proof.
  unfold _validar_valor, bind, ret, raise.
  destruct v as [s|r]; simpl.
  - destruct (re_match_valor _); simpl; [|reflexivity].
    destruct (Decimal_of_str _); reflexivity.
  - destruct (Decimal_of_str _); reflexivity.
Qed.

Lemma _validar_valor_par (v : Valor) (c : ContaBancaria) :
  _validar_valor v c = (fst (_validar_valor v c), c).
Proof.
  rewrite <- (_validar_valor_estado v c) at 3.
  destruct (_validar_valor v c); reflexivity.
Qed.

(** [_validar_valor] raises nothing but [ValueError]. *)
Lemma _validar_valor_excecao (v : Valor) (c : ContaBancaria) (s : Signal) :
  fst (_validar_valor v c) <> inl (DecimalException s).
Proof.
  unfold _validar_valor, bind, ret, raise.
  destruct v as [t|r]; simpl.
  - destruct (re_match_valor _); simpl; [|discriminate].
    destruct (Decimal_of_str _); discriminate.
  - destruct (Decimal_of_str _); discriminate.
Qed.

(** The value a validated call works with, or the message of its
    [ValueError]. *)
Ltac caso_validar v c :=
  let E := fresh "Hval" in
  rewrite (_validar_valor_par v c);
  destruct (fst (_validar_valor v c)) as [[?m|?s]|?vd] eqn:E;
  [ | exfalso; exact (_validar_valor_excecao v c _ E) | ];
  cbn [fst snd].

(** [depositar], path by path. *)
Lemma depositar_eq (agora : string) (v : Valor) (c : ContaBancaria) :
  depositar agora v c =
  match fst (_validar_valor v c) with
  | inl (ValueError m) => ((false, m), c)
  | inl (DecimalException s) => ((false, ErroInesperado s), c)
  | inr vd =>
      match __le__ vd zero with
      | inl s => ((false, ErroInesperado s), c)
      | inr true => ((false, ValorNaoPositivo), c)
      | inr false =>
          match __add__ (saldo c) vd with
          | inl s => ((false, ErroInesperado s), c)
          | inr novo =>
              (if formats_2f vd then (true, DepositoRealizado vd)
               else (false, LimitesDeFormatacao),
               apos_deposito agora vd novo c)
          end
      end
  end.
Proof.
  unfold depositar, try_except, depositar_try, bind.
  caso_validar v c; [reflexivity|].
  unfold decimal.
  destruct (__le__ vd zero) as [s|[|]]; simpl; try reflexivity.
  destruct (__add__ (saldo c) vd) as [s|novo]; [reflexivity|].
  unfold formatar, __format__. simpl.
  destruct (formats_2f vd); reflexivity.
Qed.

(** [sacar], path by path. *)
Lemma sacar_eq (agora : string) (v : Valor) (c : ContaBancaria) :
  sacar agora v c =
  match fst (_validar_valor v c) with
  | inl (ValueError m) => ((false, m), c)
  | inl (DecimalException s) => ((false, ErroInesperado s), c)
  | inr vd =>
      match __le__ vd zero with
      | inl s => ((false, ErroInesperado s), c)
      | inr true => ((false, ValorNaoPositivo), c)
      | inr false =>
          if numero_saques c >=? limite_saques_diarios c
          then ((false, LimiteSaquesExcedido (limite_saques_diarios c)), c)
          else
            match __gt__ vd (limite_saque c) with
            | inl s => ((false, ErroInesperado s), c)
            | inr true =>
                ((false, if formats_2f (limite_saque c)
                         then ValorExcedeLimite (limite_saque c)
                         else LimitesDeFormatacao), c)
            | inr false =>
                match __gt__ vd (saldo c) with
                | inl s => ((false, ErroInesperado s), c)
                | inr true =>
                    ((false, if formats_2f (saldo c)
                             then SaldoInsuficiente (saldo c)
                             else LimitesDeFormatacao), c)
                | inr false =>
                    match __sub__ (saldo c) vd with
                    | inl s => ((false, ErroInesperado s), c)
                    | inr novo =>
                        (if formats_2f vd then (true, SaqueRealizado vd)
                         else (false, LimitesDeFormatacao),
                         apos_saque agora vd novo c)
                    end
                end
            end
      end
  end.
Proof.
  unfold sacar, try_except, sacar_try, bind.
  caso_validar v c; [reflexivity|].
  unfold decimal, formatar, __format__.
  destruct (__le__ vd zero) as [s|[|]]; simpl; try reflexivity.
  destruct (numero_saques c >=? limite_saques_diarios c); simpl; [reflexivity|].
  destruct (__gt__ vd (limite_saque c)) as [s|[|]]; simpl; try reflexivity.
  { destruct (formats_2f (limite_saque c)); reflexivity. }
  destruct (__gt__ vd (saldo c)) as [s|[|]]; simpl; try reflexivity.
  { destruct (formats_2f (saldo c)); reflexivity. }
  destruct (__sub__ (saldo c) vd) as [s|novo]; [reflexivity|].
  simpl. destruct (formats_2f vd); reflexivity.
Qed.

(* ================================================================== *)
(** ** Amount texts *)
(* ================================================================== *)

(** C4. The texts [10.5] and [10,5] are validated to the same decimal,
    105E-1; the texts [10.555], [-5], [abc] and the empty text are refused
    with the format message, by [_validar_valor] and hence by [depositar]
    and [sacar], whatever the account. *)
Theorem analise_de_textos (agora : string) (c : ContaBancaria) :
  _validar_valor (VStr "10.5") c = _validar_valor (VStr "10,5") c /\
  _validar_valor (VStr "10.5") c = (inr (Finite false 105 (-1)), c) /\
  Forall (fun s =>
            _validar_valor (VStr s) c = (inl (ValueError FormatoInvalido), c) /\
            depositar agora (VStr s) c = ((false, FormatoInvalido), c) /\
            sacar agora (VStr s) c = ((false, FormatoInvalido), c))
         ["10.555"; "-5"; "abc"; ""] /\
  erro_de FormatoInvalido = Some InvalidFormat.
Proof.
  repeat split; repeat constructor.
Qed.

Lemma append_assoc (a b c : string) : ((a ++ b) ++ c = a ++ (b ++ c))%string.
Proof. induction a as [|x a IH]; simpl; [reflexivity | now rewrite IH]. Qed.

Lemma append_vazio (a : string) : (a ++ "" = a)%string.
Proof. induction a as [|x a IH]; simpl; [reflexivity | now rewrite IH]. Qed.

(* ================================================================== *)
(** ** The statement, path by path *)
(* ================================================================== *)

Lemma formatar_10_eq (d : Decimal) (c : ContaBancaria) :
  formatar_10 d c =
  (if formats_2f d then inr (rjust 10 (format_2f d))
   else inl (ValueError LimitesDeFormatacao), c).
Proof.
  unfold formatar_10, formatar, __format__, bind, ret, raise.
  destruct (formats_2f d); reflexivity.
Qed.

(** The loop of [obter_extrato] appends the lines in the order of the list,
    or raises at the first amount that does not format. *)
Lemma laco_do_extrato_eq (h : list Operacao) (inicio : string) (c : ContaBancaria) :
  laco_do_extrato h inicio c =
  (if forallb (fun o => formats_2f (valor o)) h
   then inr (inicio ++ fold_right append "" (map linha_operacao h))%string
   else inl (ValueError LimitesDeFormatacao), c).
Proof.
  revert inicio. induction h as [|o h IH]; intros inicio; simpl.
  - unfold ret. now rewrite append_vazio.
  - unfold bind. rewrite formatar_10_eq.
    destruct (formats_2f (valor o)); simpl; [|reflexivity].
    rewrite IH. destruct (forallb _ h); [|reflexivity].
    unfold linha_operacao. now rewrite append_assoc.
Qed.

Lemma obter_extrato_eq (c : ContaBancaria) :
  obter_extrato c =
  (if extrato_formata c
   then inr (cabecalho_extrato ++ corpo_extrato (historico c) ++ rodape_extrato c)%string
   else inl (ValueError LimitesDeFormatacao), c).
Proof.
  unfold obter_extrato, extrato_formata, bind, get. cbn [fst snd].
  unfold cabecalho_extrato, rodape_extrato, corpo_extrato.
  destruct (historico c) as [|o h] eqn:Eh.
  - unfold ret at 1. cbn [forallb andb]. rewrite formatar_10_eq.
    destruct (formats_2f (saldo c)); [|reflexivity].
    unfold ret. rewrite !append_assoc. reflexivity.
  - rewrite laco_do_extrato_eq.
    destruct (forallb _ (o :: h)); [|reflexivity].
    cbn [andb]. rewrite formatar_10_eq.
    destruct (formats_2f (saldo c)); [|reflexivity].
    unfold ret. rewrite !append_assoc. reflexivity.
Qed.

Lemma obter_extrato_estado (c : ContaBancaria) : snd (obter_extrato c) = c.
Proof. now rewrite obter_extrato_eq. Qed.

(* ================================================================== *)
(** ** Sessions *)
(* ================================================================== *)

(** A property that every call preserves holds throughout a session. *)
Lemma sessao_invariante (P : ContaBancaria -> Prop) :
  (forall ch c, P c -> P (chamar ch c)) ->
  forall chs c, P c -> P (sessao chs c).
Proof.
  intros passo chs. unfold sessao.
  induction chs as [|ch chs IH]; intros c Hc; simpl; [exact Hc|].
  apply IH, passo, Hc.
Qed.

Lemma __init___campos (ls : Valor) (lsd : Z) (c0 : ContaBancaria) :
  __init__ ls lsd = Some c0 ->
  saldo c0 = Finite false 0 (-2) /\ limite_saques_diarios c0 = lsd /\
  numero_saques c0 = 0 /\ historico c0 = [].
Proof.
  unfold __init__. destruct (Decimal_of_str (str ls)); [|discriminate].
  intros H; injection H as <-. repeat split.
Qed.

(** The two limits are never assigned after [__init__]. *)
Lemma chamar_limites (ch : Chamada) (c : ContaBancaria) :
  limite_saque (chamar ch c) = limite_saque c /\
  limite_saques_diarios (chamar ch c) = limite_saques_diarios c.
Proof.
  destruct ch as [agora v|agora v|]; simpl;
    [| |rewrite obter_extrato_estado; split; reflexivity].
  - rewrite depositar_eq.
    destruct (fst (_validar_valor v c)) as [[m|s]|vd]; try (split; reflexivity).
    destruct (__le__ vd zero) as [s|[|]]; try (split; reflexivity).
    destruct (__add__ (saldo c) vd) as [s|novo]; split; reflexivity.
  - rewrite sacar_eq.
    destruct (fst (_validar_valor v c)) as [[m|s]|vd]; try (split; reflexivity).
    destruct (__le__ vd zero) as [s|[|]]; try (split; reflexivity).
    destruct (numero_saques c >=? limite_saques_diarios c); [split; reflexivity|].
    destruct (__gt__ vd (limite_saque c)) as [s|[|]]; try (split; reflexivity).
    destruct (__gt__ vd (saldo c)) as [s|[|]]; try (split; reflexivity).
    destruct (__sub__ (saldo c) vd) as [s|novo]; split; reflexivity.
Qed.

Lemma sessao_limites (chs : list Chamada) (c : ContaBancaria) :
  limite_saque (sessao chs c) = limite_saque c /\
  limite_saques_diarios (sessao chs c) = limite_saques_diarios c.
Proof.
  apply (sessao_invariante
           (fun x => limite_saque x = limite_saque c /\
                     limite_saques_diarios x = limite_saques_diarios c)).
  - intros ch x [H1 H2]. destruct (chamar_limites ch x) as [G1 G2].
    split; congruence.
  - split; reflexivity.
Qed.

(** The counter after one call of [sacar]: as it was, or one more when it
    was below the limit. *)
Lemma sacar_numero_saques (agora : string) (v : Valor) (c : ContaBancaria) :
  numero_saques (estado (sacar agora v c)) = numero_saques c \/
  (numero_saques c < limite_saques_diarios c /\
   numero_saques (estado (sacar agora v c)) = numero_saques c + 1).
Proof.
  rewrite sacar_eq.
  destruct (fst (_validar_valor v c)) as [[m|s]|vd]; try (left; reflexivity).
  destruct (__le__ vd zero) as [s|[|]]; try (left; reflexivity).
  destruct (numero_saques c >=? limite_saques_diarios c) eqn:E; [left; reflexivity|].
  rewrite Z.geb_leb in E. apply Z.leb_gt in E.
  destruct (__gt__ vd (limite_saque c)) as [s|[|]]; try (left; reflexivity).
  destruct (__gt__ vd (saldo c)) as [s|[|]]; try (left; reflexivity).
  destruct (__sub__ (saldo c) vd) as [s|novo]; [left; reflexivity|].
  right. split; [exact E | reflexivity].
Qed.

Lemma depositar_numero_saques (agora : string) (v : Valor) (c : ContaBancaria) :
  numero_saques (estado (depositar agora v c)) = numero_saques c.
Proof.
  rewrite depositar_eq.
  destruct (fst (_validar_valor v c)) as [[m|s]|vd]; try reflexivity.
  destruct (__le__ vd zero) as [s|[|]]; try reflexivity.
  destruct (__add__ (saldo c) vd) as [s|novo]; reflexivity.
Qed.


(* ================================================================== *)
(** ** The default scenario *)
(* ================================================================== *)

(** C9. On [ContaBancaria()], whose limits are 500 and 3: depositing the text
    [100.00] succeeds and leaves the balance 100.00; withdrawing [600] then
    fails on the per-withdrawal limit; withdrawing [100.00] succeeds and
    leaves 0.00; withdrawing [0.01] fails for insufficient funds. *)
Theorem cenario_limites_padrao (t1 t2 t3 t4 : string) :
  let r1 := depositar t1 (VStr "100.00") conta_padrao in
  let r2 := sacar t2 (VStr "600") (estado r1) in
  let r3 := sacar t3 (VStr "100.00") (estado r2) in
  let r4 := sacar t4 (VStr "0.01") (estado r3) in
  __init__ (VObj "500") 3 = Some conta_padrao /\
  sucesso r1 = true /\ saldo (estado r1) = Finite false 10000 (-2) /\
  sucesso r2 = false /\
  erro_de (mensagem r2) = Some PerTransactionLimitExceeded /\
  mensagem r2 = ValorExcedeLimite (Finite false 500 0) /\
  sucesso r3 = true /\ saldo (estado r3) = Finite false 0 (-2) /\
  sucesso r4 = false /\
  erro_de (mensagem r4) = Some InsufficientFunds.
Proof.
  repeat split.
Qed.

(* ================================================================== *)
(** ** The daily limit *)
(* ================================================================== *)

Lemma valores_de_app (t : Tipo) (h1 h2 : list Operacao) :
  valores_de t (h1 ++ h2) = (valores_de t h1 ++ valores_de t h2)%list.
Proof. unfold valores_de. now rewrite filter_app, map_app. Qed.

Lemma chamar_conta_saques (ch : Chamada) (c : ContaBancaria) :
  conta_saques c -> conta_saques (chamar ch c).
Proof.
  unfold conta_saques. intros H.
  destruct ch as [agora v|agora v|]; simpl;
    [| |rewrite obter_extrato_estado; exact H].
  - rewrite depositar_eq.
    destruct (fst (_validar_valor v c)) as [[m|s]|vd]; try exact H.
    destruct (__le__ vd zero) as [s|[|]]; try exact H.
    destruct (__add__ (saldo c) vd) as [s|novo]; [exact H|].
    simpl. rewrite valores_de_app. simpl. rewrite app_nil_r. exact H.
  - rewrite sacar_eq.
    destruct (fst (_validar_valor v c)) as [[m|s]|vd]; try exact H.
    destruct (__le__ vd zero) as [s|[|]]; try exact H.
    destruct (numero_saques c >=? limite_saques_diarios c); [exact H|].
    destruct (__gt__ vd (limite_saque c)) as [s|[|]]; try exact H.
    destruct (__gt__ vd (saldo c)) as [s|[|]]; try exact H.
    destruct (__sub__ (saldo c) vd) as [s|novo]; [exact H|].
    simpl. rewrite valores_de_app, length_app. simpl. lia.
Qed.

Lemma sessao_conta_saques (ls : Valor) (lsd : Z) (c0 : ContaBancaria) (chs : list Chamada) :
  __init__ ls lsd = Some c0 -> conta_saques (sessao chs c0).
Proof.
  intros Hinit. destruct (__init___campos _ _ _ Hinit) as (_ & _ & Hn & Hh).
  apply sessao_invariante; [exact chamar_conta_saques|].
  unfold conta_saques. now rewrite Hn, Hh.
Qed.




(* ================================================================== *)
(** ** Strings: stripping, the pattern and the constructor *)
(* ================================================================== *)

Lemma isdigit_caracter (a : ascii) :
  isdigit a = true ->
  isspace a = false /\ a <> "_"%char /\ a <> "-"%char /\ a <> "+"%char /\
  a <> "."%char /\ a <> ","%char.
Proof.
  destruct a as [[] [] [] [] [] [] [] []]; vm_compute; intros H;
    try discriminate H; repeat split; discriminate.
Qed.

(** [span_digits] splits a string into its digits and a rest that does not
    start with a digit. *)
Lemma span_digits_spec (s : string) :
  let (ds, r) := span_digits s in
  s = ds ++ r /\ so_digitos ds = true /\ sem_digito_inicial r.
Proof.
  induction s as [|a s IH]; simpl; [repeat split|].
  destruct (isdigit a) eqn:Ea.
  - destruct (span_digits s) as [ds r]. destruct IH as (-> & Hd & Hr).
    simpl. rewrite Ea, Hd. repeat split. exact Hr.
  - simpl. repeat split. exact Ea.
Qed.

Lemma span_digits_app (ds r : string) :
  so_digitos ds = true -> sem_digito_inicial r ->
  span_digits (ds ++ r) = (ds, r).
Proof.
  intros Hd Hr. induction ds as [|a ds IH]; simpl in *.
  - destruct r as [|b r]; simpl in *; [reflexivity | now rewrite Hr].
  - apply andb_true_iff in Hd as [Ha Hd]. now rewrite Ha, (IH Hd).
Qed.

(** Stripping. *)
Lemma rstrip_termina (s : string) : termina_em_espaco (rstrip s) = false.
Proof.
  induction s as [|a s IH]; simpl; [reflexivity|].
  destruct (rstrip s) as [|b t] eqn:E.
  - destruct (isspace a) eqn:Ea; simpl; [reflexivity | exact Ea].
  - exact IH.
Qed.

Lemma rstrip_id (s : string) : termina_em_espaco s = false -> rstrip s = s.
Proof.
  induction s as [|a s IH]; simpl; [reflexivity|].
  destruct s as [|b t].
  - intros ->. reflexivity.
  - intros H. rewrite (IH H). reflexivity.
Qed.

Lemma termina_em_espaco_app (x : string) (a : ascii) :
  termina_em_espaco (x ++ String a "") = isspace a.
Proof.
  induction x as [|b x IH]; simpl; [reflexivity|].
  destruct (x ++ String a "") eqn:E; [|exact IH].
  destruct x; discriminate E.
Qed.

Lemma termina_em_espaco_digitos (x ds : string) :
  so_digitos ds = true -> ds <> "" -> termina_em_espaco (x ++ ds) = false.
Proof.
  revert x. induction ds as [|a ds IH]; intros x Hd Hne; [congruence|].
  simpl in Hd. apply andb_true_iff in Hd as [Ha Hd].
  destruct ds as [|b ds].
  - rewrite termina_em_espaco_app. apply isdigit_caracter, Ha.
  - replace (x ++ String a (String b ds)) with ((x ++ String a "") ++ String b ds)
      by (now rewrite append_assoc).
    apply IH; [exact Hd | discriminate].
Qed.

(** Replacing the comma keeps the last character a space or not. *)
Lemma replace_virgula_cons (a : ascii) (r : string) :
  replace "," "." (String a r) =
  String (if Ascii.eqb a "," then "."%char else a) (replace "," "." r).
Proof. simpl. destruct (Ascii.eqb a ","); reflexivity. Qed.

Lemma termina_em_espaco_replace (s : string) :
  termina_em_espaco (replace "," "." s) = termina_em_espaco s.
Proof.
  induction s as [|a s IH]; [reflexivity|].
  rewrite replace_virgula_cons.
  destruct s as [|b t].
  - simpl. destruct (Ascii.eqb a ",") eqn:E; [|reflexivity].
    apply Ascii.eqb_eq in E. subst a. reflexivity.
  - rewrite replace_virgula_cons in *. exact IH.
Qed.

(** The text [_validar_valor] matches against the pattern never ends with a
    newline, so [$] can only match at its very end. *)
Lemma normalizado_sem_newline (s x : string) :
  replace "," "." (strip s) <> x ++ nl.
Proof.
  intros E.
  assert (H : termina_em_espaco (replace "," "." (strip s)) = false).
  { rewrite termina_em_espaco_replace. apply rstrip_termina. }
  rewrite E in H. unfold nl in H. rewrite termina_em_espaco_app in H.
  discriminate H.
Qed.

Lemma at_dollar_casos (r : string) :
  at_dollar r = true -> r = "" \/ r = nl.
Proof.
  destruct r as [|a [|b r]]; simpl; intros H; try discriminate; [now left|].
  right. apply Ascii.eqb_eq in H. now subst a.
Qed.

(** On a text that does not end with a newline, the pattern accepts exactly
    the format of the specification. *)
Lemma re_match_valor_formato (t : string) :
  (forall x, t <> x ++ nl) ->
  re_match_valor t = true ->
  exists ds fs, so_digitos ds = true /\ ds <> "" /\ so_digitos fs = true /\
                (length fs <= 2)%nat /\ t = texto_valor ds fs.
Proof.
  intros Hnl. unfold re_match_valor.
  pose proof (span_digits_spec t) as Hs.
  destruct (span_digits t) as [ds r]. destruct Hs as (Et & Hd & Hr).
  intros H. apply andb_true_iff in H as [Hne H].
  assert (Hds : ds <> "") by (destruct ds; [discriminate Hne | discriminate]).
  apply orb_true_iff in H as [H|H].
  - apply at_dollar_casos in H as [-> | ->].
    + exists ds, "". rewrite append_vazio in Et. repeat split; auto.
    + exfalso. exact (Hnl _ Et).
  - destruct r as [|a r']; [discriminate|].
    destruct (Ascii.eqb a ".") eqn:Ea.
    2:{ destruct a as [[] [] [] [] [] [] [] []]; discriminate. }
    apply Ascii.eqb_eq in Ea. subst a.
    pose proof (span_digits_spec r') as Hs'.
    destruct (span_digits r') as [fs u]. destruct Hs' as (Er & Hf & Hu).
    apply andb_true_iff in H as [H Hend].
    apply andb_true_iff in H as [H1 H2].
    apply Nat.leb_le in H1, H2.
    apply at_dollar_casos in Hend as [-> | ->].
    + rewrite append_vazio in Er. subst r'.
      exists ds, fs. repeat split; auto.
      unfold texto_valor. destruct fs; [simpl in H1; lia | exact Et].
    + exfalso. apply (Hnl (ds ++ "." ++ fs)). rewrite Et, Er.
      rewrite !append_assoc. reflexivity.
Qed.

Lemma formato_re_match_valor (ds fs : string) :
  so_digitos ds = true -> ds <> "" -> so_digitos fs = true ->
  (length fs <= 2)%nat ->
  re_match_valor (texto_valor ds fs) = true.
Proof.
  intros Hd Hne Hf Hlen. unfold re_match_valor, texto_valor.
  destruct fs as [|b fs].
  - rewrite <- (append_vazio ds) at 1.
    rewrite span_digits_app by (simpl; auto).
    destruct ds; [congruence | reflexivity].
  - rewrite span_digits_app by (simpl; auto).
    replace (is_empty ds) with false by (destruct ds; [congruence | reflexivity]).
    cbn [negb andb at_dollar append orb].
    rewrite <- (append_vazio (String b fs)).
    rewrite span_digits_app by (simpl; auto).
    apply Nat.leb_le in Hlen. rewrite Hlen. reflexivity.
Qed.

(** The constructor on a text in the format: nothing to strip, no
    underscore, no sign, no exponent. *)
Lemma replace_sublinhado_digitos (ds r : string) :
  so_digitos ds = true ->
  replace "_" "" (ds ++ r) = ds ++ replace "_" "" r.
Proof.
  intros Hd. induction ds as [|a ds IH]; [reflexivity|].
  simpl in Hd. apply andb_true_iff in Hd as [Ha Hd].
  simpl. destruct (Ascii.eqb a "_") eqn:E.
  - apply Ascii.eqb_eq in E. destruct (isdigit_caracter a Ha) as (_ & N & _).
    contradiction.
  - now rewrite (IH Hd).
Qed.

Lemma split_sign_digito (a : ascii) (r : string) :
  isdigit a = true -> split_sign (String a r) = (false, String a r).
Proof.
  destruct a as [[] [] [] [] [] [] [] []]; vm_compute; intros H;
    try discriminate H; reflexivity.
Qed.

Lemma strip_texto_valor (ds fs : string) :
  so_digitos ds = true -> ds <> "" -> so_digitos fs = true ->
  strip (texto_valor ds fs) = texto_valor ds fs.
Proof.
  intros Hd Hne Hf. unfold strip.
  assert (L : lstrip (texto_valor ds fs) = texto_valor ds fs).
  { destruct ds as [|a ds]; [congruence|].
    simpl in Hd. apply andb_true_iff in Hd as [Ha _].
    destruct fs; simpl; now rewrite (proj1 (isdigit_caracter a Ha)). }
  rewrite L. apply rstrip_id. unfold texto_valor.
  destruct fs as [|b fs].
  - apply (termina_em_espaco_digitos "" ds Hd Hne).
  - replace (ds ++ "." ++ String b fs) with ((ds ++ ".") ++ String b fs)
      by (now rewrite append_assoc).
    apply termina_em_espaco_digitos; [exact Hf | discriminate].
Qed.

Lemma replace_sublinhado_texto_valor (ds fs : string) :
  so_digitos ds = true -> so_digitos fs = true ->
  replace "_" "" (texto_valor ds fs) = texto_valor ds fs.
Proof.
  intros Hd Hf. unfold texto_valor. destruct fs as [|b fs].
  - rewrite <- (append_vazio ds) at 1.
    rewrite replace_sublinhado_digitos by exact Hd.
    simpl. now rewrite append_vazio.
  - rewrite replace_sublinhado_digitos by exact Hd.
    f_equal.
    change (replace "_" "" ("." ++ String b fs))
      with (String "." (replace "_" "" (String b fs))).
    change ("." ++ String b fs) with (String "." (String b fs)).
    f_equal. rewrite <- (append_vazio (String b fs)) at 1.
    rewrite replace_sublinhado_digitos by exact Hf.
    simpl. now rewrite append_vazio.
Qed.

Lemma parse_number_texto_valor (ds fs : string) :
  so_digitos ds = true -> ds <> "" -> so_digitos fs = true ->
  parse_number (texto_valor ds fs) =
  Some (int_of_digits (ds ++ fs), - Z.of_nat (length fs)).
Proof.
  intros Hd Hne Hf. unfold parse_number, texto_valor.
  assert (Eds : is_empty ds = false) by (destruct ds; [congruence | reflexivity]).
  destruct fs as [|b fs].
  - rewrite <- (append_vazio ds) at 1.
    rewrite span_digits_app by (simpl; auto).
    rewrite Eds. simpl. reflexivity.
  - rewrite span_digits_app by (simpl; auto).
    cbn [append].
    rewrite <- (append_vazio (String b fs)) at 1.
    rewrite span_digits_app by (simpl; auto).
    rewrite Eds. cbn [andb parse_exponent]. reflexivity.
Qed.

(** An amount with at most two fractional digits is inside the limits of
    the constructor. *)
Lemma exact_conversion_texto (c : N) (e : Z) :
  (-2 <= e <= 0)%Z -> exact_conversion c e = true.
Proof.
  intros He. unfold exact_conversion, digits.
  apply andb_true_iff; split; apply Z.leb_le.
  - unfold MIN_ETINY. lia.
  - pose proof (Z.le_min_r (ndigits (Z.of_N c)) (10 ^ 17)) as H.
    change (10 ^ 17)%Z with 100000000000000000%Z in H.
    unfold MAX_EMAX.
    change (10 ^ 17)%Z with 100000000000000000%Z. lia.
Qed.

Lemma Decimal_of_str_texto_valor (ds fs : string) :
  so_digitos ds = true -> ds <> "" -> so_digitos fs = true ->
  (length fs <= 2)%nat ->
  Decimal_of_str (texto_valor ds fs) =
  Some (Finite false (int_of_digits (ds ++ fs)) (- Z.of_nat (length fs))).
Proof.
  intros Hd Hne Hf Hlen. unfold Decimal_of_str.
  rewrite strip_texto_valor, replace_sublinhado_texto_valor by assumption.
  assert (S : split_sign (texto_valor ds fs) = (false, texto_valor ds fs)).
  { destruct ds as [|a ds]; [congruence|].
    simpl in Hd. apply andb_true_iff in Hd as [Ha _].
    unfold texto_valor. destruct fs; apply split_sign_digito, Ha. }
  rewrite S, parse_number_texto_valor by assumption.
  rewrite exact_conversion_texto by lia.
  reflexivity.
Qed.

Lemma formato_spec_texto_valor (t : string) :
  formato_spec t <->
  exists ds fs, so_digitos ds = true /\ ds <> "" /\ so_digitos fs = true /\
                (length fs <= 2)%nat /\ t = texto_valor ds fs.
Proof.
  unfold formato_spec. split.
  - intros (ds & fs & Hd & Hne & Hf & [[-> ->] | [Hlen ->]]).
    + exists ds, "". repeat split; auto.
    + exists ds, fs. repeat split; auto; [lia|].
      unfold texto_valor. destruct fs; [simpl in Hlen; lia | reflexivity].
  - intros (ds & fs & Hd & Hne & Hf & Hlen & ->).
    exists ds, fs. repeat split; auto.
    unfold texto_valor. destruct fs as [|b fs]; [now left|].
    right. split; [simpl in *; lia | reflexivity].
Qed.

(* ================================================================== *)
(** ** The format of accepted texts *)
(* ================================================================== *)

(** C6, as the code has it.  For a [str] argument [s], let [t] be [s]
    stripped and with its commas turned into periods.  If validation accepts,
    [t] is made of digits, optionally a period and one or two more digits,
    and the amount is exactly the number those digits write, non-negative and
    with as many fractional digits.  If [t] is not in that format, the call
    fails with the format message, in [_validar_valor] and so before the
    positivity check of [depositar] and [sacar].  If [t] is in the format,
    validation accepts.  (An argument that is not a [str] is not matched
    against the pattern.) *)
Theorem formato_dos_textos (s agora : string) (c : ContaBancaria) :
  let t := replace "," "." (strip s) in
  (forall d, fst (_validar_valor (VStr s) c) = inr d ->
     exists ds fs,
       so_digitos ds = true /\ ds <> "" /\ so_digitos fs = true /\
       (length fs <= 2)%nat /\ t = texto_valor ds fs /\ formato_spec t /\
       d = Finite false (int_of_digits (ds ++ fs)) (- Z.of_nat (length fs))) /\
  (~ formato_spec t ->
     _validar_valor (VStr s) c = (inl (ValueError FormatoInvalido), c) /\
     depositar agora (VStr s) c = ((false, FormatoInvalido), c) /\
     sacar agora (VStr s) c = ((false, FormatoInvalido), c) /\
     erro_de FormatoInvalido = Some InvalidFormat) /\
  (formato_spec t -> exists d, _validar_valor (VStr s) c = (inr d, c)).
Proof.
  intros t.
  assert (V : _validar_valor (VStr s) c =
              if re_match_valor t
              then (match Decimal_of_str t with
                    | Some d => inr d
                    | None => inl (ValueError NumeroInvalido)
                    end, c)
              else (inl (ValueError FormatoInvalido), c)).
  { unfold _validar_valor, bind, ret, raise. fold t.
    destruct (re_match_valor t); simpl; [|reflexivity].
    destruct (Decimal_of_str t); reflexivity. }
  split; [|split].
  - intros d Hd. rewrite V in Hd.
    destruct (re_match_valor t) eqn:Em; [|discriminate Hd].
    destruct (re_match_valor_formato t (normalizado_sem_newline s) Em)
      as (ds & fs & H1 & H2 & H3 & H4 & H5).
    exists ds, fs. repeat split; auto.
    + apply formato_spec_texto_valor. exists ds, fs. repeat split; auto.
    + rewrite H5, (Decimal_of_str_texto_valor ds fs H1 H2 H3 H4) in Hd.
      simpl in Hd. now injection Hd as <-.
  - intros Hn.
    assert (Em : re_match_valor t = false).
    { destruct (re_match_valor t) eqn:Em; [|reflexivity].
      exfalso. apply Hn, formato_spec_texto_valor.
      exact (re_match_valor_formato t (normalizado_sem_newline s) Em). }
    rewrite Em in V. repeat split; [exact V | |].
    + rewrite depositar_eq, V. reflexivity.
    + rewrite sacar_eq, V. reflexivity.
  - intros Hf. apply formato_spec_texto_valor in Hf
      as (ds & fs & H1 & H2 & H3 & H4 & H5).
    rewrite V, H5, (formato_re_match_valor ds fs H1 H2 H3 H4),
      (Decimal_of_str_texto_valor ds fs H1 H2 H3 H4).
    eexists. reflexivity.
Qed.

Lemma formato_dos_textos_witness :
  formato_spec (replace "," "." (strip " 12,50 ")) /\
  sacar "t" (VStr "-0.001") conta_padrao = ((false, FormatoInvalido), conta_padrao).
Proof.
  split.
  - destruct (proj1 (formato_dos_textos " 12,50 " "t" conta_padrao)
                    (Finite false 1250 (-2)) eq_refl)
      as (ds & fs & _ & _ & _ & _ & _ & H & _).
    exact H.
  - apply (proj1 (proj2 (formato_dos_textos "-0.001" "t" conta_padrao))).
    intros H. apply formato_spec_texto_valor in H
      as (ds & fs & H1 & H2 & H3 & H4 & H5).
    destruct ds as [|a ds]; [congruence|].
    assert (E : a = "-"%char).
    { unfold texto_valor in H5. destruct fs; simpl in H5; congruence. }
    subst a. discriminate H1.
Defined.

(** C6, as stated, fails for arguments that are not [str]: the float 10.555
    is accepted with three fractional digits, and the number -5, which is
    not in the format, is refused as a non-positive amount rather than as a
    malformed one. *)
Lemma formato_de_todo_valor_falso :
  _validar_valor (VObj "10.555") conta_padrao
    = (inr (Finite false 10555 (-3)), conta_padrao) /\
  duas_casas (Finite false 10555 (-3)) = false /\
  sucesso (depositar "t" (VObj "10.555") conta_padrao) = true /\
  ~ formato_spec "-5" /\
  erro_de (mensagem (depositar "t" (VObj "-5") conta_padrao)) = Some InvalidAmount /\
  erro_de (mensagem (sacar "t" (VObj "-5") conta_padrao)) = Some InvalidAmount.
Proof.
  repeat split.
  intros H. apply formato_spec_texto_valor in H
    as (ds & fs & H1 & H2 & H3 & H4 & H5).
  destruct ds as [|a ds]; [congruence|].
  assert (E : a = "-"%char).
  { unfold texto_valor in H5. destruct fs; simpl in H5; congruence. }
  subst a. discriminate H1.
Qed.

(* ================================================================== *)
(** ** Decimal arithmetic: digits and rounding *)
(* ================================================================== *)

Local Close Scope string_scope.

Lemma pow10_pos (k : Z) : 0 <= k -> 0 < 10 ^ k.
Proof. intros. apply Z.pow_pos_nonneg; lia. Qed.

Lemma pow10_succ (k : Z) : 0 <= k -> 10 ^ (k + 1) = 10 * 10 ^ k.
Proof. intros. rewrite Z.pow_add_r by lia. lia. Qed.

Lemma ndigits_aux_spec (fuel : nat) (n : Z) :
  0 < n -> n < 2 ^ (Z.of_nat fuel + 1) ->
  1 <= ndigits_aux fuel n /\
  10 ^ (ndigits_aux fuel n - 1) <= n < 10 ^ ndigits_aux fuel n.
Proof.
  revert n. induction fuel as [|f IH]; intros n Hpos Hlt.
  - simpl in *. assert (n = 1) by lia. subst n. simpl. lia.
  - cbn [ndigits_aux]. destruct (n <? 10) eqn:E.
    + apply Z.ltb_lt in E. simpl. lia.
    + apply Z.ltb_ge in E.
      assert (Hq : 0 < n / 10) by (apply Z.div_str_pos; lia).
      assert (Hf : n / 10 < 2 ^ (Z.of_nat f + 1)).
      { apply Z.div_lt_upper_bound; [lia|].
        rewrite Nat2Z.inj_succ in Hlt.
        replace (Z.succ (Z.of_nat f) + 1) with ((Z.of_nat f + 1) + 1) in Hlt by lia.
        rewrite (Z.pow_add_r 2 (Z.of_nat f + 1) 1) in Hlt by lia.
        pose proof (Z.pow_pos_nonneg 2 (Z.of_nat f + 1)). lia. }
      destruct (IH (n / 10) Hq Hf) as (H1 & H2 & H3).
      set (d := ndigits_aux f (n / 10)) in *.
      split; [lia|].
      replace (1 + d - 1) with ((d - 1) + 1) by lia.
      replace (1 + d) with (d + 1) by lia.
      rewrite !pow10_succ by lia.
      pose proof (Z.div_mod n 10 ltac:(lia)).
      pose proof (Z.mod_pos_bound n 10 ltac:(lia)).
      lia.
Qed.

(** For [n > 0], [ndigits n] is the [d] with [10^(d-1) <= n < 10^d]. *)
Lemma ndigits_spec (n : Z) :
  0 < n -> 1 <= ndigits n /\ 10 ^ (ndigits n - 1) <= n < 10 ^ ndigits n.
Proof.
  intros Hpos. unfold ndigits. apply ndigits_aux_spec; [exact Hpos|].
  rewrite Z2Nat.id by apply Z.log2_nonneg.
  destruct (Z.log2_spec n Hpos) as [_ H]. now rewrite Z.add_1_r.
Qed.

Lemma ndigits_0 : ndigits 0 = 1.
Proof. reflexivity. Qed.

Lemma ndigits_le (n d : Z) : 0 <= n < 10 ^ d -> 1 <= d -> ndigits n <= d.
Proof.
  intros [H0 H1] Hd.
  destruct (Z.eq_dec n 0) as [->|Hn]; [rewrite ndigits_0; lia|].
  destruct (ndigits_spec n ltac:(lia)) as (G1 & G2 & G3).
  assert (10 ^ (ndigits n - 1) < 10 ^ d) by lia.
  apply Z.pow_lt_mono_r_iff in H; lia.
Qed.

Lemma ndigits_gt (n d : Z) : 0 <= d -> 10 ^ d <= n -> d < ndigits n.
Proof.
  intros Hd H.
  pose proof (pow10_pos d Hd).
  destruct (ndigits_spec n ltac:(lia)) as (G1 & G2 & G3).
  assert (L : 10 ^ d < 10 ^ ndigits n) by lia.
  apply Z.pow_lt_mono_r_iff in L; lia.
Qed.

Lemma ndigits_lt_pow (n : Z) : 0 <= n -> n < 10 ^ ndigits n.
Proof.
  intros H. destruct (Z.eq_dec n 0) as [->|Hn]; [reflexivity|].
  apply ndigits_spec. lia.
Qed.

Lemma ndigits_mono (a b : Z) : 0 <= a <= b -> ndigits a <= ndigits b.
Proof.
  intros [Ha Hab]. apply ndigits_le.
  - split; [exact Ha|]. pose proof (ndigits_lt_pow b ltac:(lia)). lia.
  - destruct (Z.eq_dec b 0) as [->|Hb]; [rewrite ndigits_0; lia|].
    apply ndigits_spec. lia.
Qed.

(** Padding a coefficient with [j] zeros adds [j] digits. *)
Lemma ndigits_shift (c j : Z) : 0 < c -> 0 <= j -> ndigits (c * 10 ^ j) = ndigits c + j.
Proof.
  intros Hc Hj.
  destruct (ndigits_spec c Hc) as (G1 & G2 & G3).
  pose proof (pow10_pos j Hj) as Pj.
  assert (U : ndigits (c * 10 ^ j) <= ndigits c + j).
  { apply ndigits_le; [|lia]. rewrite Z.pow_add_r by lia. nia. }
  assert (L : ndigits c - 1 + j < ndigits (c * 10 ^ j)).
  { apply ndigits_gt; [lia|]. rewrite Z.pow_add_r by lia. nia. }
  lia.
Qed.

(** Rounding half-even stays between the quotient and its successor, and
    never passes a multiple of the unit that bounds the coefficient. *)
Lemma round_half_even_bounds (c k : Z) :
  0 <= c -> 0 <= k ->
  c / 10 ^ k <= round_half_even c k <= c / 10 ^ k + 1.
Proof.
  intros Hc Hk. unfold round_half_even.
  destruct (_ || _); lia.
Qed.

Lemma round_half_even_le (c k q : Z) :
  0 <= c -> 0 <= k -> c <= q * 10 ^ k -> round_half_even c k <= q.
Proof.
  intros Hc Hk Hq. unfold round_half_even.
  pose proof (pow10_pos k Hk) as P.
  pose proof (Z.div_mod c (10 ^ k) ltac:(lia)) as D.
  pose proof (Z.mod_pos_bound c (10 ^ k) P) as B.
  assert (Q : c / 10 ^ k <= q).
  { apply Z.div_le_upper_bound; [exact P | lia]. }
  destruct (_ || _) eqn:E; [|exact Q].
  destruct (Z.eq_dec (c / 10 ^ k) q) as [Eq|]; [|lia].
  assert (c mod 10 ^ k = 0) by nia.
  rewrite H in E. change (2 * 0) with 0 in E.
  apply orb_true_iff in E as [E|E].
  - apply Z.gtb_lt in E. lia.
  - apply andb_true_iff in E as [E _]. apply Z.eqb_eq in E. lia.
Qed.

Lemma round_half_even_nonneg (c k : Z) :
  0 <= c -> 0 <= k -> 0 <= round_half_even c k.
Proof.
  intros Hc Hk. pose proof (round_half_even_bounds c k Hc Hk).
  pose proof (Z.div_pos c (10 ^ k) Hc (pow10_pos k Hk)). lia.
Qed.

(* ================================================================== *)
(** ** Decimal arithmetic: the context *)
(* ================================================================== *)

Lemma contexto_padrao :
  prec = 28 /\ Emax = 999999 /\ Etiny = -1000026 /\ Etop = 999972.
Proof. repeat split. Qed.

Lemma gtb_false (n m : Z) : (n >? m) = false <-> n <= m.
Proof. rewrite Z.gtb_ltb. apply Z.ltb_ge. Qed.

Ltac contexto :=
  destruct contexto_padrao as (Cprec & CEmax & CEtiny & CEtop).

(** [_fix] returns unchanged a value the context can hold. *)
Lemma _fix_exato (s : bool) (c : N) (e : Z) :
  Etiny <= e ->
  (c = 0%N -> e <= Emax) ->
  (c <> 0%N -> ndigits (Z.of_N c) <= prec /\ ndigits (Z.of_N c) + e - 1 <= Emax) ->
  _fix (Finite s c e) = inr (Finite s c e).
Proof.
  intros He H0 H1. contexto. unfold _fix.
  destruct (c =? 0)%N eqn:E.
  - apply N.eqb_eq in E. subst c. specialize (H0 eq_refl).
    do 2 f_equal. lia.
  - apply N.eqb_neq in E. destruct (H1 E) as [D1 D2].
    replace (ndigits (Z.of_N c) + e - prec >? Etop) with false
      by (symmetry; apply gtb_false; lia).
    replace (e <? Z.max (ndigits (Z.of_N c) + e - prec) Etiny) with false
      by (symmetry; apply Z.ltb_ge; lia).
    reflexivity.
Qed.

(** What [_fix] returns for a non-negative finite value is a valid balance. *)
Lemma _fix_valido (c : N) (e : Z) (d : Decimal) :
  _fix (Finite false c e) = inr d -> saldo_valido d.
Proof.
  contexto. unfold _fix.
  destruct (c =? 0)%N eqn:E.
  { intros H. injection H as <-. simpl. split; [reflexivity | now left]. }
  apply N.eqb_neq in E.
  assert (Hc : 0 < Z.of_N c) by lia.
  set (n := ndigits (Z.of_N c)).
  destruct (n + e - prec >? Etop) eqn:E1; [discriminate|].
  apply gtb_false in E1.
  set (exp_min := Z.max (n + e - prec) Etiny).
  destruct (e <? exp_min) eqn:E2.
  - apply Z.ltb_lt in E2.
    set (coeff := round_half_even (Z.of_N c) (exp_min - e)).
    assert (Hco : 0 <= coeff)
      by (apply round_half_even_nonneg; lia).
    destruct (ndigits coeff >? prec) eqn:E3.
    + destruct (exp_min + 1 >? Etop) eqn:E4; [discriminate|].
      apply gtb_false in E4.
      intros H. injection H as <-. simpl. split; [reflexivity|]. right.
      rewrite Z2N.id by (apply Z.div_pos; lia).
      assert (B : coeff <= 10 ^ prec).
      { apply round_half_even_le; [lia | lia |].
        rewrite <- Z.pow_add_r by lia.
        pose proof (ndigits_lt_pow (Z.of_N c) ltac:(lia)) as P. fold n in P.
        assert (10 ^ n <= 10 ^ (prec + (exp_min - e)))
          by (apply Z.pow_le_mono_r; lia).
        lia. }
      assert (D : ndigits (coeff / 10) <= prec).
      { apply ndigits_le; [|lia]. split; [apply Z.div_pos; lia|].
        apply Z.div_lt_upper_bound; [lia|].
        pose proof (pow10_pos prec ltac:(lia)). lia. }
      lia.
    + apply gtb_false in E3.
      intros H. injection H as <-. simpl. split; [reflexivity|]. right.
      rewrite Z2N.id by exact Hco. lia.
  - apply Z.ltb_ge in E2.
    intros H. injection H as <-. simpl. split; [reflexivity|]. right.
    fold n. lia.
Qed.

(** Rounding a value that does not exceed a valid balance cannot overflow. *)
Lemma _fix_abaixo (s : bool) (t m c e : Z) :
  0 <= t -> m <= e -> t <= c * 10 ^ (e - m) ->
  (c = 0 \/ (0 < c /\ ndigits c <= prec /\ ndigits c + e - 1 <= Emax)) ->
  exists d, _fix (Finite s (Z.to_N t) m) = inr d.
Proof.
  intros Ht Hm Hle Hv. contexto. unfold _fix.
  destruct (Z.to_N t =? 0)%N eqn:E; [eexists; reflexivity|].
  apply N.eqb_neq in E. rewrite Z2N.id by exact Ht.
  assert (Htp : 0 < t) by lia.
  pose proof (pow10_pos (e - m) ltac:(lia)) as Pem.
  destruct Hv as [-> | (Hc & D1 & D2)]; [lia|].
  set (A := c * 10 ^ (e - m)) in *.
  assert (LA : ndigits A = ndigits c + (e - m))
    by (apply ndigits_shift; lia).
  assert (LL : ndigits t <= ndigits A) by (apply ndigits_mono; lia).
  set (L := ndigits t) in *.
  replace (L + m - prec >? Etop) with false
    by (symmetry; apply gtb_false; lia).
  set (exp_min := Z.max (L + m - prec) Etiny).
  destruct (m <? exp_min) eqn:E2; [|eexists; reflexivity].
  apply Z.ltb_lt in E2.
  set (coeff := round_half_even t (exp_min - m)).
  destruct (ndigits coeff >? prec) eqn:E3; [|eexists; reflexivity].
  destruct (exp_min + 1 >? Etop) eqn:E4; [|eexists; reflexivity].
  exfalso.
  apply Z.gtb_lt in E3. apply Z.gtb_lt in E4.
  assert (K : exp_min - m = L - prec) by lia.
  assert (J : 0 <= prec - ndigits c) by lia.
  assert (EA : A = (c * 10 ^ (prec - ndigits c)) * 10 ^ (exp_min - m)).
  { unfold A. rewrite <- Z.mul_assoc, <- Z.pow_add_r by lia.
    do 2 f_equal. lia. }
  assert (B : coeff <= c * 10 ^ (prec - ndigits c)).
  { apply round_half_even_le; [lia | lia | lia]. }
  assert (Q : ndigits (c * 10 ^ (prec - ndigits c)) = prec).
  { rewrite ndigits_shift by lia. lia. }
  assert (Hco : 0 <= coeff) by (apply round_half_even_nonneg; lia).
  pose proof (ndigits_mono coeff (c * 10 ^ (prec - ndigits c)) (conj Hco B)).
  lia.
Qed.

(* ================================================================== *)
(** ** Decimal arithmetic: comparisons, sums and differences of balances *)
(* ================================================================== *)

(** [vd <= 0] is false exactly for [+Infinity] and the finite values with a
    positive sign and a non-zero coefficient. *)
Lemma positivo_casos (b : Decimal) :
  __le__ b zero = inr false ->
  b = Infinity false \/ exists c e, b = Finite false c e /\ (0 < c)%N.
Proof.
  destruct b as [s c e|[|]|s sg dg]; unfold __le__; simpl is_nan;
    cbn [orb]; try discriminate.
  - unfold _cmp, zero. cbn [signed Z.of_N]. rewrite Z.mul_0_l.
    pose proof (pow10_pos (e - Z.min e 0) ltac:(lia)) as P.
    destruct (Z.compare_spec (signed s c * 10 ^ (e - Z.min e 0)) 0) as [H|H|H];
      try discriminate.
    intros _. right. exists c, e.
    destruct s; unfold signed in H; [nia|]. split; [reflexivity | nia].
  - intros _. now left.
Qed.

Lemma saldo_valido_nao_negativo (d : Decimal) :
  saldo_valido d -> __le__ zero d = inr true.
Proof.
  destruct d as [s c e|s|s sg dg]; simpl; [| |contradiction].
  - intros [-> _]. unfold __le__, _cmp, zero. cbn [is_nan orb signed Z.of_N].
    rewrite Z.mul_0_l.
    pose proof (pow10_pos (e - Z.min 0 e) ltac:(lia)) as P.
    destruct (Z.compare_spec 0 (Z.of_N c * 10 ^ (e - Z.min 0 e))) as [H|H|H];
      try reflexivity.
    nia.
  - intros ->. reflexivity.
Qed.

(** Adding a positive amount to a valid balance gives a valid balance. *)
Lemma __add___valido (a b d : Decimal) :
  saldo_valido a -> __le__ b zero = inr false ->
  __add__ a b = inr d -> saldo_valido d.
Proof.
  intros Ha Hb.
  destruct (positivo_casos b Hb) as [-> | (c2 & e2 & -> & Hc2)];
    destruct a as [s c e|s|s sg dg]; simpl in Ha; try contradiction.
  - intros H. injection H as <-. reflexivity.
  - subst s. intros H. injection H as <-. reflexivity.
  - destruct Ha as [-> _]. unfold __add__. cbn [_check_nans signed].
    set (m := Z.min e e2).
    pose proof (pow10_pos (e - m) ltac:(lia)) as P1.
    pose proof (pow10_pos (e2 - m) ltac:(lia)) as P2.
    set (total := Z.of_N c * 10 ^ (e - m) + Z.of_N c2 * 10 ^ (e2 - m)).
    assert (T : 0 < total) by (unfold total; nia).
    replace (total =? 0) with false by (symmetry; apply Z.eqb_neq; lia).
    replace (total <? 0) with false by (symmetry; apply Z.ltb_ge; lia).
    apply _fix_valido.
  - subst s. intros H. injection H as <-. reflexivity.
Qed.

(** What [vd > saldo] being false says of two non-negative finite values. *)
Lemma nao_maior_finitos (c2 : N) (e2 : Z) (c : N) (e : Z) :
  __gt__ (Finite false c2 e2) (Finite false c e) = inr false ->
  Z.of_N c2 * 10 ^ (e2 - Z.min e e2) <= Z.of_N c * 10 ^ (e - Z.min e e2).
Proof.
  unfold __gt__, _cmp. cbn [is_nan orb signed].
  rewrite (Z.min_comm e2 e).
  destruct (Z.compare_spec (Z.of_N c2 * 10 ^ (e2 - Z.min e e2))
                           (Z.of_N c * 10 ^ (e - Z.min e e2))) as [H|H|H];
    intros G; try discriminate G; lia.
Qed.

(** Subtracting a positive amount that does not exceed it from a valid
    balance gives a valid balance. *)
Lemma __sub___valido (a b d : Decimal) :
  saldo_valido a -> __le__ b zero = inr false -> __gt__ b a = inr false ->
  __sub__ a b = inr d -> saldo_valido d.
Proof.
  intros Ha Hb Hgt.
  destruct (positivo_casos b Hb) as [-> | (c2 & e2 & -> & Hc2)];
    destruct a as [s c e|s|s sg dg]; simpl in Ha; try contradiction.
  - discriminate Hgt.
  - subst s. discriminate.
  - destruct Ha as [-> _]. apply nao_maior_finitos in Hgt.
    unfold __sub__, __add__. cbn [_check_nans copy_negate negb signed].
    set (m := Z.min e e2) in *.
    set (total := Z.of_N c * 10 ^ (e - m) + - Z.of_N c2 * 10 ^ (e2 - m)).
    assert (T : 0 <= total) by (unfold total; lia).
    replace (if total =? 0 then false && true else total <? 0) with false.
    + apply _fix_valido.
    + destruct (total =? 0); [reflexivity|]. symmetry. apply Z.ltb_ge. exact T.
  - subst s. intros H. injection H as <-. reflexivity.
Qed.

(** That subtraction raises only for [Infinity - Infinity]. *)
Lemma __sub___definido (a b : Decimal) :
  saldo_valido a -> __le__ b zero = inr false -> __gt__ b a = inr false ->
  (a = Infinity false /\ b = Infinity false /\ __sub__ a b = inl InvalidOperation) \/
  (exists d, __sub__ a b = inr d).
Proof.
  intros Ha Hb Hgt.
  destruct (positivo_casos b Hb) as [-> | (c2 & e2 & -> & Hc2)];
    destruct a as [s c e|s|s sg dg]; simpl in Ha; try contradiction.
  - discriminate Hgt.
  - subst s. left. repeat split.
  - right. destruct Ha as [-> Hv]. apply nao_maior_finitos in Hgt.
    unfold __sub__, __add__. cbn [_check_nans copy_negate negb signed].
    set (m := Z.min e e2) in *.
    pose proof (pow10_pos (e2 - m) ltac:(lia)) as P2.
    set (total := Z.of_N c * 10 ^ (e - m) + - Z.of_N c2 * 10 ^ (e2 - m)).
    assert (T : 0 <= total) by (unfold total; lia).
    replace (Z.abs_N total) with (Z.to_N total) by lia.
    apply (_fix_abaixo _ total m (Z.of_N c) e); [exact T | lia | unfold total; nia |].
    destruct Hv as [-> | [D1 D2]]; [now left|].
    destruct (N.eq_dec c 0) as [-> | Hne]; [now left|].
    right. repeat split; [lia | exact D1 | exact D2].
  - subst s. right. eexists. reflexivity.
Qed.

(* ================================================================== *)
(** ** Balances in hundredths *)
(* ================================================================== *)

Lemma _fix_centavos (t : Z) :
  0 <= t < 10 ^ 28 ->
  _fix (Finite false (Z.to_N t) (-2)) = inr (Finite false (Z.to_N t) (-2)).
Proof.
  intros [H0 H1]. contexto. apply _fix_exato; [lia | lia |].
  intros _. rewrite Z2N.id by exact H0.
  assert (ndigits t <= prec) by (apply ndigits_le; [split; assumption | lia]).
  lia.
Qed.

Lemma __add___centavos (n : Z) (c2 : N) (e2 : Z) :
  0 <= n -> -2 <= e2 -> n + Z.of_N c2 * 10 ^ (e2 + 2) < 10 ^ 28 ->
  __add__ (Finite false (Z.to_N n) (-2)) (Finite false c2 e2)
  = inr (Finite false (Z.to_N (n + Z.of_N c2 * 10 ^ (e2 + 2))) (-2)).
Proof.
  intros Hn He Hlt. unfold __add__. cbn [_check_nans signed andb].
  rewrite Z.min_l by lia.
  replace (-2 - -2) with 0 by lia. replace (e2 - -2) with (e2 + 2) by lia.
  rewrite Z.pow_0_r, Z.mul_1_r, Z2N.id by exact Hn.
  pose proof (pow10_pos (e2 + 2) ltac:(lia)) as P.
  set (total := n + Z.of_N c2 * 10 ^ (e2 + 2)) in *.
  assert (T : 0 <= total) by (unfold total; nia).
  replace (if total =? 0 then false else total <? 0) with false
    by (destruct (total =? 0); [reflexivity | symmetry; apply Z.ltb_ge; exact T]).
  replace (Z.abs_N total) with (Z.to_N total) by lia.
  apply _fix_centavos. lia.
Qed.

Lemma __sub___centavos (n : Z) (c2 : N) (e2 : Z) :
  0 <= n < 10 ^ 28 -> -2 <= e2 -> Z.of_N c2 * 10 ^ (e2 + 2) <= n ->
  __sub__ (Finite false (Z.to_N n) (-2)) (Finite false c2 e2)
  = inr (Finite false (Z.to_N (n - Z.of_N c2 * 10 ^ (e2 + 2))) (-2)).
Proof.
  intros Hn He Hle. unfold __sub__, __add__.
  cbn [_check_nans copy_negate negb signed andb].
  rewrite Z.min_l by lia.
  replace (-2 - -2) with 0 by lia. replace (e2 - -2) with (e2 + 2) by lia.
  rewrite Z.pow_0_r, Z.mul_1_r, Z2N.id by lia.
  set (total := n + - Z.of_N c2 * 10 ^ (e2 + 2)).
  assert (T : 0 <= total) by (unfold total; lia).
  replace (if total =? 0 then false else total <? 0) with false
    by (destruct (total =? 0); [reflexivity | symmetry; apply Z.ltb_ge; exact T]).
  replace (Z.abs_N total) with (Z.to_N total) by lia.
  replace (n - Z.of_N c2 * 10 ^ (e2 + 2)) with total by (unfold total; lia).
  apply _fix_centavos.
  pose proof (pow10_pos (e2 + 2) ltac:(lia)). unfold total. nia.
Qed.

Lemma nao_maior_centavos (n : Z) (c2 : N) (e2 : Z) :
  0 <= n -> -2 <= e2 ->
  __gt__ (Finite false c2 e2) (Finite false (Z.to_N n) (-2)) = inr false ->
  Z.of_N c2 * 10 ^ (e2 + 2) <= n.
Proof.
  intros Hn He H. apply nao_maior_finitos in H.
  rewrite Z.min_l in H by lia.
  replace (-2 - -2) with 0 in H by lia.
  replace (e2 - -2) with (e2 + 2) in H by lia.
  rewrite Z.pow_0_r, Z.mul_1_r, Z2N.id in H by exact Hn. exact H.
Qed.

(** A positive amount with at most two fractional digits. *)
Lemma centavos_positivo (v : Decimal) :
  __le__ v zero = inr false -> duas_casas v = true ->
  exists c e, v = Finite false c e /\ -2 <= e /\
              centavos v = Z.of_N c * 10 ^ (e + 2) /\ 0 < centavos v.
Proof.
  intros Hp Hd.
  destruct (positivo_casos v Hp) as [-> | (c & e & -> & Hc)]; [discriminate Hd|].
  simpl in Hd. apply Z.leb_le in Hd.
  exists c, e. cbn [centavos signed].
  pose proof (pow10_pos (e + 2) ltac:(lia)).
  repeat split; [exact Hd | nia].
Qed.

Lemma total_centavos_app (a b : list Decimal) :
  total_centavos (a ++ b) = total_centavos a + total_centavos b.
Proof.
  unfold total_centavos. induction a as [|x a IH]; simpl; [reflexivity|].
  rewrite IH. lia.
Qed.

(* ================================================================== *)
(** ** What holds throughout a session *)
(* ================================================================== *)

Lemma deposito_invariante (agora : string) (vd novo : Decimal) (c : ContaBancaria) :
  invariante c -> __le__ vd zero = inr false ->
  __add__ (saldo c) vd = inr novo ->
  invariante (apos_deposito agora vd novo c).
Proof.
  intros (Hs & Hh & Hc) Hp Ha. split; [|split].
  - exact (__add___valido _ _ _ Hs Hp Ha).
  - unfold historico_positivo, apos_deposito. cbn [historico].
    apply Forall_app. split; [exact Hh|]. constructor; [exact Hp | constructor].
  - unfold saldo_confere, apos_deposito in *. cbn [historico saldo].
    rewrite !valores_de_app, !total_centavos_app.
    cbn [valores_de filter map tipo Tipo_eqb valor total_centavos fold_right].
    rewrite !Z.add_0_r.
    intros HF Hlt. apply Forall_app in HF as [HF1 HF2].
    inversion HF2 as [|? ? Hd _]; subst. cbn [valor] in Hd.
    destruct (centavos_positivo vd Hp Hd) as (c2 & e2 & -> & He & Hcv & Hpos).
    destruct (Hc HF1 ltac:(lia)) as [Hb Es].
    split; [lia|].
    rewrite Es in Ha. rewrite __add___centavos in Ha by lia.
    injection Ha as <-. rewrite Hcv. do 2 f_equal. lia.
Qed.

Lemma saque_invariante (agora : string) (vd novo : Decimal) (c : ContaBancaria) :
  invariante c -> __le__ vd zero = inr false ->
  __gt__ vd (saldo c) = inr false ->
  __sub__ (saldo c) vd = inr novo ->
  invariante (apos_saque agora vd novo c).
Proof.
  intros (Hs & Hh & Hc) Hp Hg Ha. split; [|split].
  - exact (__sub___valido _ _ _ Hs Hp Hg Ha).
  - unfold historico_positivo, apos_saque. cbn [historico].
    apply Forall_app. split; [exact Hh|]. constructor; [exact Hp | constructor].
  - unfold saldo_confere, apos_saque in *. cbn [historico saldo].
    rewrite !valores_de_app, !total_centavos_app.
    cbn [valores_de filter map tipo Tipo_eqb valor total_centavos fold_right].
    rewrite !Z.add_0_r.
    intros HF Hlt. apply Forall_app in HF as [HF1 HF2].
    inversion HF2 as [|? ? Hd _]; subst. cbn [valor] in Hd.
    destruct (centavos_positivo vd Hp Hd) as (c2 & e2 & -> & He & Hcv & Hpos).
    destruct (Hc HF1 Hlt) as [Hb Es].
    rewrite Es in Hg, Ha.
    apply nao_maior_centavos in Hg; [|lia|exact He].
    rewrite __sub___centavos in Ha by lia.
    injection Ha as <-. rewrite Hcv.
    split; [lia|]. do 2 f_equal. lia.
Qed.

Lemma chamar_invariante (ch : Chamada) (c : ContaBancaria) :
  invariante c -> invariante (chamar ch c).
Proof.
  intros H. destruct ch as [agora v|agora v|]; simpl;
    [| |rewrite obter_extrato_estado; exact H].
  - rewrite depositar_eq.
    destruct (fst (_validar_valor v c)) as [[m|s]|vd]; try exact H.
    destruct (__le__ vd zero) as [s|[|]] eqn:Hp; try exact H.
    destruct (__add__ (saldo c) vd) as [s|novo] eqn:Ha; [exact H|].
    exact (deposito_invariante agora vd novo c H Hp Ha).
  - rewrite sacar_eq.
    destruct (fst (_validar_valor v c)) as [[m|s]|vd]; try exact H.
    destruct (__le__ vd zero) as [s|[|]] eqn:Hp; try exact H.
    destruct (numero_saques c >=? limite_saques_diarios c); [exact H|].
    destruct (__gt__ vd (limite_saque c)) as [s|[|]]; try exact H.
    destruct (__gt__ vd (saldo c)) as [s|[|]] eqn:Hg; try exact H.
    destruct (__sub__ (saldo c) vd) as [s|novo] eqn:Ha; [exact H|].
    exact (saque_invariante agora vd novo c H Hp Hg Ha).
Qed.

Lemma sessao_invariante_conta
  (ls : Valor) (lsd : Z) (c0 : ContaBancaria) (chs : list Chamada) :
  __init__ ls lsd = Some c0 -> invariante (sessao chs c0).
Proof.
  intros Hinit. destruct (__init___campos _ _ _ Hinit) as (Hs & _ & _ & Hh).
  apply sessao_invariante; [exact chamar_invariante|].
  unfold invariante, historico_positivo, saldo_confere.
  rewrite Hs, Hh. split; [|split].
  - simpl. split; [reflexivity | now left].
  - constructor.
  - intros _ _. simpl. split; [lia | reflexivity].
Qed.

(* ================================================================== *)
(** ** Exact values *)
(* ================================================================== *)





(* ================================================================== *)
(** ** The balance and the recorded transactions *)
(* ================================================================== *)




(* ================================================================== *)
(** ** What formats *)
(* ================================================================== *)

(** The positivity check on a finite value with a positive sign. *)
Lemma __le___zero_finito (n : N) (e : Z) :
  __le__ (Finite false n e) zero = inr (n =? 0)%N.
Proof.
  unfold __le__, _cmp, zero. cbn [is_nan orb signed Z.of_N]. rewrite Z.mul_0_l.
  pose proof (pow10_pos (e - Z.min e 0) ltac:(lia)) as P.
  destruct (N.eqb_spec n 0) as [-> | Hn].
  - reflexivity.
  - destruct (Z.compare_spec (Z.of_N n * 10 ^ (e - Z.min e 0)) 0) as [H|H|H];
      try reflexivity; nia.
Qed.

Lemma digits_le (c : N) : digits c <= ndigits (Z.of_N c).
Proof. unfold digits. apply Z.le_min_l. Qed.

Lemma digits_limite (c : N) : digits c <= 100000000000000000.
Proof. unfold digits. apply Z.le_min_r. Qed.

(** A number in the range of the context formats. *)
Lemma no_alcance_formata (d : Decimal) : no_alcance d -> formats_2f d = true.
Proof.
  destruct d as [s c e|s|s sg dg]; cbn [no_alcance formats_2f];
    [|reflexivity|contradiction].
  intros [-> | H]; [reflexivity|].
  apply orb_true_iff. right. apply Z.leb_le.
  pose proof (digits_le c). contexto. unfold MAX_PREC. lia.
Qed.

Lemma no_alcance_nao_nan (d : Decimal) : no_alcance d -> is_nan d = false.
Proof. destruct d; cbn [no_alcance is_nan]; [reflexivity | reflexivity | contradiction]. Qed.

Lemma saldo_valido_no_alcance (d : Decimal) : saldo_valido d -> no_alcance d.
Proof.
  destruct d as [s c e|s|s sg dg]; cbn [saldo_valido no_alcance];
    [|trivial|trivial].
  intros [_ [H | [_ H]]]; [now left | now right].
Qed.

Lemma saldo_finito_valido_finito (d : Decimal) :
  saldo_valido d -> (exists c e, d = Finite false c e) -> saldo_finito d.
Proof.
  intros H (c & e & ->). cbn [saldo_valido saldo_finito] in *.
  destruct H as [_ [H | [_ H]]]; split; auto.
Qed.

(** So does an amount with at most two fractional digits. *)
Lemma duas_casas_formata (s : bool) (c : N) (e : Z) :
  -2 <= e <= 0 -> formats_2f (Finite s c e) = true.
Proof.
  intros He. cbn [formats_2f]. apply orb_true_iff. right. apply Z.leb_le.
  pose proof (digits_limite c). unfold MAX_PREC. lia.
Qed.

(** A positive amount that a finite balance covers is in the range of the
    context. *)
Lemma saque_no_alcance (vd sal : Decimal) :
  saldo_finito sal -> __le__ vd zero = inr false -> __gt__ vd sal = inr false ->
  no_alcance vd.
Proof.
  intros Hs Hp Hg.
  destruct sal as [s c e|s|s sg dg]; cbn [saldo_finito] in Hs; try contradiction.
  destruct Hs as [-> Hv].
  destruct (positivo_casos vd Hp) as [-> | (c2 & e2 & -> & Hc2)];
    [discriminate Hg|].
  apply nao_maior_finitos in Hg.
  set (m := Z.min e e2) in *.
  pose proof (pow10_pos (e - m) ltac:(lia)) as P1.
  pose proof (pow10_pos (e2 - m) ltac:(lia)) as P2.
  cbn [no_alcance]. right.
  destruct Hv as [-> | Hv]; [nia|].
  assert (Hc : 0 < Z.of_N c) by nia.
  assert (M : ndigits (Z.of_N c2 * 10 ^ (e2 - m)) <= ndigits (Z.of_N c * 10 ^ (e - m)))
    by (apply ndigits_mono; nia).
  rewrite !ndigits_shift in M by lia. lia.
Qed.


(* ================================================================== *)
(** ** An amount that does not format *)
(* ================================================================== *)

(** Validation of an argument that is not a [str] is the constructor alone. *)
Lemma _validar_valor_objeto (repr : string) (c : ContaBancaria) :
  _validar_valor (VObj repr) c =
  (match Decimal_of_str repr with
   | Some d => inr d
   | None => inl (ValueError NumeroInvalido)
   end, c).
Proof.
  unfold _validar_valor, bind, ret, raise. cbn [str].
  destruct (Decimal_of_str repr); reflexivity.
Qed.

Lemma valor_enorme_lido :
  Decimal_of_str "1E+999999999999999999" = Some valor_enorme.
Proof. vm_compute. reflexivity. Qed.

Lemma valor_enorme_positivo : __le__ valor_enorme zero = inr false.
Proof. unfold valor_enorme. now rewrite __le___zero_finito. Qed.

Lemma valor_enorme_nao_formata : formats_2f valor_enorme = false.
Proof. vm_compute. reflexivity. Qed.


(** So is a withdrawal, when the limit per withdrawal is infinite too. *)
Lemma saque_enorme (agora : string) (c : ContaBancaria) :
  saldo c = Infinity false -> limite_saque c = Infinity false ->
  numero_saques c < limite_saques_diarios c ->
  sacar agora (VObj "1E+999999999999999999") c =
  ((false, LimitesDeFormatacao), apos_saque agora valor_enorme (Infinity false) c).
Proof.
  intros Es El Hn.
  rewrite sacar_eq, _validar_valor_objeto, valor_enorme_lido. cbn [fst].
  rewrite valor_enorme_positivo, Es, El, valor_enorme_nao_formata.
  replace (numero_saques c >=? limite_saques_diarios c) with false
    by (symmetry; rewrite Z.geb_leb; apply Z.leb_gt; exact Hn).
  reflexivity.
Qed.

(** A positive value is above every finite value that is not positive. *)
Lemma __gt___negativo (c1 : N) (e1 : Z) (c2 : N) (e2 : Z) :
  (0 < c1)%N -> __gt__ (Finite false c1 e1) (Finite true c2 e2) = inr true.
Proof.
  intros Hc. unfold __gt__, _cmp. cbn [is_nan orb signed].
  set (m := Z.min e1 e2).
  pose proof (pow10_pos (e1 - m) ltac:(lia)) as P1.
  pose proof (pow10_pos (e2 - m) ltac:(lia)) as P2.
  destruct (Z.compare_spec (Z.of_N c1 * 10 ^ (e1 - m))
                           (- Z.of_N c2 * 10 ^ (e2 - m))) as [H|H|H];
    [exfalso; nia | exfalso; nia | reflexivity].
Qed.

(** With a limit per withdrawal of -1E+999999999999999999, which the
    constructor reads and [__format__] refuses, the message of the limit
    cannot be built. *)
Lemma saque_limite_sem_formato (agora : string) (c : ContaBancaria) :
  limite_saque c = Finite true 1 999999999999999999 ->
  numero_saques c < limite_saques_diarios c ->
  sacar agora (VStr "1") c = ((false, LimitesDeFormatacao), c).
Proof.
  intros El Hn.
  assert (V : _validar_valor (VStr "1") c = (inr (Finite false 1 0), c))
    by reflexivity.
  rewrite sacar_eq, V. cbn [fst].
  rewrite __le___zero_finito. cbn [N.eqb].
  replace (numero_saques c >=? limite_saques_diarios c) with false
    by (symmetry; rewrite Z.geb_leb; apply Z.leb_gt; exact Hn).
  rewrite El, __gt___negativo by reflexivity.
  replace (formats_2f (Finite true 1 999999999999999999)) with false
    by (vm_compute; reflexivity).
  reflexivity.
Qed.

(* ================================================================== *)
(** ** The order of the checks of [sacar] *)
(* ================================================================== *)

Lemma __le___definido (a b : Decimal) :
  is_nan a = false -> is_nan b = false -> exists r, __le__ a b = inr r.
Proof. intros Ha Hb. unfold __le__. rewrite Ha, Hb. eexists. reflexivity. Qed.

Lemma __gt___definido (a b : Decimal) :
  is_nan a = false -> is_nan b = false -> exists r, __gt__ a b = inr r.
Proof. intros Ha Hb. unfold __gt__. rewrite Ha, Hb. eexists. reflexivity. Qed.

Lemma saldo_valido_nao_nan (d : Decimal) : saldo_valido d -> is_nan d = false.
Proof. destruct d; simpl; [reflexivity | reflexivity | contradiction]. Qed.

(** C2, as the code has it.  In a session on a new account whose
    per-withdrawal limit is a number in the range of the decimal context (or
    an infinity), let [sacar] be called with an argument that validation
    accepts as a value [vd] other than a NaN.  Then none of the three
    comparisons raises, and the answer is decided by the first check that
    fails, in this order: [vd <= 0], the non-positive message; the counter at
    or above the daily limit, the daily-limit message; [vd] above the
    per-withdrawal limit, the per-withdrawal message; [vd] above the balance,
    the insufficient-funds message.  Each of these leaves the account
    unchanged.  When the four checks pass and the balance is finite, the
    withdrawal is applied and succeeds.  When they pass on a balance of
    +Infinity and [vd] is in the range of the context, either [vd] is
    +Infinity too, the subtraction raises and the call fails with the
    unexpected-error message, the account unchanged, or the withdrawal is
    applied and succeeds. *)
Theorem ordem_das_validacoes
  (ls : Valor) (lsd : Z) (c0 : ContaBancaria) (chs : list Chamada)
  (agora : string) (v : Valor) (vd : Decimal) :
  __init__ ls lsd = Some c0 ->
  let c := sessao chs c0 in
  fst (_validar_valor v c) = inr vd ->
  is_nan vd = false ->
  no_alcance (limite_saque c) ->
  let r := sacar agora v c in
  ((exists b1 b3 b4, __le__ vd zero = inr b1 /\
                     __gt__ vd (limite_saque c) = inr b3 /\
                     __gt__ vd (saldo c) = inr b4)) /\
  (__le__ vd zero = inr true ->
     r = ((false, ValorNaoPositivo), c)) /\
  (__le__ vd zero = inr false ->
   limite_saques_diarios c <= numero_saques c ->
     r = ((false, LimiteSaquesExcedido (limite_saques_diarios c)), c)) /\
  (__le__ vd zero = inr false ->
   numero_saques c < limite_saques_diarios c ->
   __gt__ vd (limite_saque c) = inr true ->
     r = ((false, ValorExcedeLimite (limite_saque c)), c)) /\
  (__le__ vd zero = inr false ->
   numero_saques c < limite_saques_diarios c ->
   __gt__ vd (limite_saque c) = inr false ->
   __gt__ vd (saldo c) = inr true ->
     r = ((false, SaldoInsuficiente (saldo c)), c)) /\
  (__le__ vd zero = inr false ->
   numero_saques c < limite_saques_diarios c ->
   __gt__ vd (limite_saque c) = inr false ->
   __gt__ vd (saldo c) = inr false ->
   saldo_finito (saldo c) ->
     exists novo, __sub__ (saldo c) vd = inr novo /\
                  r = ((true, SaqueRealizado vd), apos_saque agora vd novo c)) /\
  (__le__ vd zero = inr false ->
   numero_saques c < limite_saques_diarios c ->
   __gt__ vd (limite_saque c) = inr false ->
   __gt__ vd (saldo c) = inr false ->
   saldo c = Infinity false ->
   no_alcance vd ->
     (vd = Infinity false /\
      r = ((false, ErroInesperado InvalidOperation), c)) \/
     (__sub__ (saldo c) vd = inr (Infinity false) /\
      r = ((true, SaqueRealizado vd), apos_saque agora vd (Infinity false) c))) /\
  (erro_de ValorNaoPositivo = Some InvalidAmount /\
   erro_de (LimiteSaquesExcedido (limite_saques_diarios c)) = Some DailyLimitExceeded /\
   erro_de (ValorExcedeLimite (limite_saque c)) = Some PerTransactionLimitExceeded /\
   erro_de (SaldoInsuficiente (saldo c)) = Some InsufficientFunds).
Proof.
  intros Hinit c Hv Hnan Hlim r.
  destruct (sessao_invariante_conta ls lsd c0 chs Hinit) as (Hs & _ & _).
  fold c in Hs.
  assert (E : r = sacar agora v c) by reflexivity. clearbody r.
  rewrite sacar_eq, Hv in E.
  assert (G : forall n m, (n >=? m) = true <-> m <= n)
    by (intros; rewrite Z.geb_leb; apply Z.leb_le).
  assert (G' : forall n m, n < m -> (n >=? m) = false).
  { intros n m L. destruct (n >=? m) eqn:X; [|reflexivity].
    apply G in X. lia. }
  split; [|split; [|split; [|split; [|split; [|split; [|split]]]]]].
  - destruct (__le___definido vd zero Hnan eq_refl) as [b1 E1].
    destruct (__gt___definido vd (limite_saque c) Hnan (no_alcance_nao_nan _ Hlim))
      as [b3 E3].
    destruct (__gt___definido vd (saldo c) Hnan (saldo_valido_nao_nan _ Hs))
      as [b4 E4].
    exists b1, b3, b4. repeat split; assumption.
  - intros H1. now rewrite H1 in E.
  - intros H1 H2. rewrite H1 in E. apply G in H2. now rewrite H2 in E.
  - intros H1 H2 H3.
    now rewrite H1, (G' _ _ H2), H3, (no_alcance_formata _ Hlim) in E.
  - intros H1 H2 H3 H4.
    now rewrite H1, (G' _ _ H2), H3, H4,
      (no_alcance_formata _ (saldo_valido_no_alcance _ Hs)) in E.
  - intros H1 H2 H3 H4 Hf. rewrite H1, (G' _ _ H2), H3, H4 in E.
    rewrite (no_alcance_formata _ (saque_no_alcance _ _ Hf H1 H4)) in E.
    destruct (__sub___definido (saldo c) vd Hs H1 H4)
      as [(Ea & _ & _) | (novo & Es)].
    + rewrite Ea in Hf. contradiction.
    + rewrite Es in E. exists novo. split; assumption.
  - intros H1 H2 H3 H4 Hinf Hvd. rewrite H1, (G' _ _ H2), H3, H4 in E.
    rewrite (no_alcance_formata _ Hvd), Hinf in E.
    destruct (positivo_casos vd H1) as [-> | (c2 & e2 & -> & Hc2)].
    + left. split; [reflexivity | exact E].
    + right. rewrite Hinf. split; [reflexivity | exact E].
  - repeat split.
Qed.

Lemma ordem_das_validacoes_witness :
  let c := sessao [Depositar "d1" (VStr "100.00")] conta_padrao in
  sacar "s1" (VStr "600") c = ((false, ValorExcedeLimite (limite_saque c)), c) /\
  (exists novo, __sub__ (saldo c) (Finite false 2550 (-2)) = inr novo /\
                sacar "s2" (VStr "25,50") c =
                ((true, SaqueRealizado (Finite false 2550 (-2))),
                 apos_saque "s2" (Finite false 2550 (-2)) novo c)).
Proof.
  intro c.
  assert (L : no_alcance (limite_saque c))
    by (right; apply Z.leb_le; reflexivity).
  split.
  - apply (proj1 (proj2 (proj2 (proj2
             (ordem_das_validacoes (VObj "500") 3 conta_padrao
                [Depositar "d1" (VStr "100.00")] "s1" (VStr "600")
                (Finite false 600 0) eq_refl eq_refl eq_refl L)))));
      [reflexivity | reflexivity | reflexivity].
  - apply (proj1 (proj2 (proj2 (proj2 (proj2 (proj2
             (ordem_das_validacoes (VObj "500") 3 conta_padrao
                [Depositar "d1" (VStr "100.00")] "s2" (VStr "25,50")
                (Finite false 2550 (-2)) eq_refl eq_refl eq_refl L)))))));
      [reflexivity | reflexivity | reflexivity | reflexivity |].
    split; [reflexivity|]. right. apply Z.leb_le. reflexivity.
Defined.

(** C2, as stated, fails.  On an account created with an infinite
    per-withdrawal limit, after a deposit of [inf], a withdrawal of [inf]
    passes the four checks and does not succeed: [Infinity - Infinity] raises
    and the call returns the unexpected-error message; and a withdrawal of
    [Decimal('1E+999999999999999999')] passes them, is applied, and is
    answered with the text of a formatting error.  On the default account a
    withdrawal of [nan] is accepted by validation and answered with the
    unexpected-error message, which is none of the four errors, because the
    first comparison raises.  And on an account created with the limit
    [-1E+999999999999999999] a withdrawal of [1], which is above the limit,
    is answered with the text of a formatting error, not with the message of
    the limit. *)
Lemma ordem_das_validacoes_falso :
  (exists c0,
     __init__ (VObj "inf") 3 = Some c0 /\
     let c := estado (depositar "d1" (VObj "inf") c0) in
     fst (_validar_valor (VObj "inf") c) = inr (Infinity false) /\
     __le__ (Infinity false) zero = inr false /\
     (numero_saques c >=? limite_saques_diarios c) = false /\
     __gt__ (Infinity false) (limite_saque c) = inr false /\
     __gt__ (Infinity false) (saldo c) = inr false /\
     sacar "s1" (VObj "inf") c = ((false, ErroInesperado InvalidOperation), c) /\
     fst (_validar_valor (VObj "1E+999999999999999999") c) = inr valor_enorme /\
     __le__ valor_enorme zero = inr false /\
     __gt__ valor_enorme (limite_saque c) = inr false /\
     __gt__ valor_enorme (saldo c) = inr false /\
     sacar "s1" (VObj "1E+999999999999999999") c =
       ((false, LimitesDeFormatacao), apos_saque "s1" valor_enorme (Infinity false) c)) /\
  fst (_validar_valor (VObj "nan") conta_padrao) = inr (NaN false false 0) /\
  sacar "s1" (VObj "nan") conta_padrao
    = ((false, ErroInesperado InvalidOperation), conta_padrao) /\
  erro_de (ErroInesperado InvalidOperation) = None /\
  (exists c0,
     __init__ (VObj "-1E+999999999999999999") 3 = Some c0 /\
     fst (_validar_valor (VStr "1") c0) = inr (Finite false 1 0) /\
     __le__ (Finite false 1 0) zero = inr false /\
     (numero_saques c0 >=? limite_saques_diarios c0) = false /\
     __gt__ (Finite false 1 0) (limite_saque c0) = inr true /\
     sacar "s1" (VStr "1") c0 = ((false, LimitesDeFormatacao), c0)) /\
  erro_de LimitesDeFormatacao = None.
Proof.
  split; [|split; [|split; [|split; [|split]]]]; try reflexivity.
  - eexists. split; [reflexivity|]. intros c.
    do 6 (split; [reflexivity|]).
    split; [rewrite _validar_valor_objeto, valor_enorme_lido; reflexivity|].
    split; [exact valor_enorme_positivo|].
    do 2 (split; [reflexivity|]).
    apply saque_enorme; [reflexivity | reflexivity |]. apply Z.ltb_lt. reflexivity.
  - eexists. split; [reflexivity|].
    split; [reflexivity|]. split; [reflexivity|]. split; [reflexivity|].
    split; [apply __gt___negativo; reflexivity|].
    apply saque_limite_sem_formato; [reflexivity|]. apply Z.ltb_lt. reflexivity.
Qed.

(* ================================================================== *)
(** ** Failures leave the account alone *)
(* ================================================================== *)







(* ================================================================== *)
(** ** The counter of withdrawals *)
(* ================================================================== *)





(* ================================================================== *)
(** ** The statement *)
(* ================================================================== *)










(* ================================================================== *)
(** ** Arguments that are not a [str] *)
(* ================================================================== *)








(* ================================================================== *)
(** ** More on the account: the history *)
(* ================================================================== *)

(** What one call adds to the history: nothing, or one entry with a positive
    amount. *)
Lemma chamar_novos (ch : Chamada) (c : ContaBancaria) :
  exists novos,
    historico (chamar ch c) = (historico c ++ novos)%list /\
    (List.length novos <= 1)%nat /\
    Forall (fun o => __le__ (valor o) zero = inr false) novos.
Proof.
  assert (N : exists novos,
    historico c = (historico c ++ novos)%list /\
    (List.length novos <= 1)%nat /\
    Forall (fun o => __le__ (valor o) zero = inr false) novos).
  { exists []. rewrite app_nil_r. repeat split; [simpl; lia | constructor]. }
  destruct ch as [agora v|agora v|]; simpl;
    [| |rewrite obter_extrato_estado; exact N].
  - rewrite depositar_eq.
    destruct (fst (_validar_valor v c)) as [[m|s]|vd]; try exact N.
    destruct (__le__ vd zero) as [s|[|]] eqn:Hp; try exact N.
    destruct (__add__ (saldo c) vd) as [s|novo]; [exact N|].
    eexists. split; [reflexivity|]. split; [simpl; lia|].
    constructor; [exact Hp | constructor].
  - rewrite sacar_eq.
    destruct (fst (_validar_valor v c)) as [[m|s]|vd]; try exact N.
    destruct (__le__ vd zero) as [s|[|]] eqn:Hp; try exact N.
    destruct (numero_saques c >=? limite_saques_diarios c); [exact N|].
    destruct (__gt__ vd (limite_saque c)) as [s|[|]]; try exact N.
    destruct (__gt__ vd (saldo c)) as [s|[|]]; try exact N.
    destruct (__sub__ (saldo c) vd) as [s|novo]; [exact N|].
    eexists. split; [reflexivity|]. split; [simpl; lia|].
    constructor; [exact Hp | constructor].
Qed.

Lemma sessao_novos (chs : list Chamada) (c : ContaBancaria) :
  exists novos,
    historico (sessao chs c) = (historico c ++ novos)%list /\
    (List.length novos <= List.length chs)%nat /\
    Forall (fun o => __le__ (valor o) zero = inr false) novos.
Proof.
  revert c. unfold sessao.
  induction chs as [|ch chs IH]; intros c; simpl.
  - exists []. rewrite app_nil_r. repeat split; [simpl; lia | constructor].
  - destruct (chamar_novos ch c) as (n1 & E1 & L1 & P1).
    destruct (IH (chamar ch c)) as (n2 & E2 & L2 & P2).
    exists (n1 ++ n2)%list. rewrite E2, E1, app_assoc.
    split; [reflexivity|]. split.
    + rewrite length_app. lia.
    + apply Forall_app. split; assumption.
Qed.

(** X1. The history is append-only: whatever the calls and whatever the
    account they start from, the history after a session is the history
    before it followed by new entries, at most one per call. *)
Theorem historico_so_cresce (chs : list Chamada) (c : ContaBancaria) :
  exists novos,
    historico (sessao chs c) = (historico c ++ novos)%list /\
    (List.length novos <= List.length chs)%nat.
Proof.
  destruct (sessao_novos chs c) as (novos & E & L & _).
  exists novos. split; assumption.
Qed.

(** X2. Every amount a session records is positive: it is +Infinity or a
    finite value with a positive sign and a non-zero coefficient; a NaN, a
    zero or a negative amount is never recorded. *)
Theorem valores_registrados_positivos (chs : list Chamada) (c : ContaBancaria) :
  exists novos,
    historico (sessao chs c) = (historico c ++ novos)%list /\
    Forall (fun o =>
              valor o = Infinity false \/
              exists coef e, valor o = Finite false coef e /\ (0 < coef)%N)
           novos.
Proof.
  destruct (sessao_novos chs c) as (novos & E & _ & P).
  exists novos. split; [exact E|].
  apply Forall_forall. intros o Ho.
  apply positivo_casos. exact (proj1 (Forall_forall _ _) P o Ho).
Qed.

(* ================================================================== *)
(** ** More on the account: accepted calls *)
(* ================================================================== *)

(** X3. In a session on a new account, a withdrawal that succeeds was asked
    with a positive amount that exceeds neither the per-withdrawal limit nor
    the balance before the call, while the counter was below the daily
    limit; it leaves a balance that is not negative, adds one to the counter
    and appends one SAQUE entry with that amount. *)
Theorem saque_aceito
  (ls : Valor) (lsd : Z) (c0 : ContaBancaria) (chs : list Chamada)
  (agora : string) (v : Valor) :
  __init__ ls lsd = Some c0 ->
  let c := sessao chs c0 in
  sucesso (sacar agora v c) = true ->
  exists vd novo,
    fst (_validar_valor v c) = inr vd /\
    __le__ vd zero = inr false /\
    numero_saques c < limite_saques_diarios c /\
    __gt__ vd (limite_saque c) = inr false /\
    __gt__ vd (saldo c) = inr false /\
    __sub__ (saldo c) vd = inr novo /\
    __le__ zero novo = inr true /\
    sacar agora v c = ((true, SaqueRealizado vd), apos_saque agora vd novo c).
Proof.
  intros Hinit c.
  destruct (sessao_invariante_conta ls lsd c0 chs Hinit) as (Hs & _ & _).
  fold c in Hs. rewrite sacar_eq.
  destruct (fst (_validar_valor v c)) as [[m|s]|vd]; try discriminate.
  destruct (__le__ vd zero) as [s|[|]] eqn:Hp; try discriminate.
  destruct (numero_saques c >=? limite_saques_diarios c) eqn:Hn; [discriminate|].
  destruct (__gt__ vd (limite_saque c)) as [s|[|]] eqn:Hl; try discriminate.
  destruct (__gt__ vd (saldo c)) as [s|[|]] eqn:Hg; try discriminate.
  destruct (__sub__ (saldo c) vd) as [s|novo] eqn:Ha; [discriminate|].
  destruct (formats_2f vd); [|discriminate].
  intros _. exists vd, novo. repeat split; try assumption.
  - rewrite Z.geb_leb in Hn. apply Z.leb_gt in Hn. exact Hn.
  - apply saldo_valido_nao_negativo.
    exact (__sub___valido _ _ _ Hs Hp Hg Ha).
Qed.

Lemma saque_aceito_witness :
  let c := sessao [Depositar "d1" (VStr "80")] conta_padrao in
  exists vd novo,
    fst (_validar_valor (VStr "30,25") c) = inr vd /\
    __le__ vd zero = inr false /\
    numero_saques c < limite_saques_diarios c /\
    __gt__ vd (limite_saque c) = inr false /\
    __gt__ vd (saldo c) = inr false /\
    __sub__ (saldo c) vd = inr novo /\
    __le__ zero novo = inr true /\
    sacar "s1" (VStr "30,25") c = ((true, SaqueRealizado vd), apos_saque "s1" vd novo c).
Proof.
  intro c.
  apply (saque_aceito (VObj "500") 3 conta_padrao [Depositar "d1" (VStr "80")]
                      "s1" (VStr "30,25") eq_refl).
  reflexivity.
Defined.

(** X4. A deposit that succeeds was asked with a positive amount; it leaves
    the sum of the balance and the amount, as the context rounds it, appends
    one DEPÓSITO entry with that amount and leaves the counter and the two
    limits as they were. *)
Theorem deposito_aceito (agora : string) (v : Valor) (c : ContaBancaria) :
  sucesso (depositar agora v c) = true ->
  exists vd novo,
    fst (_validar_valor v c) = inr vd /\
    __le__ vd zero = inr false /\
    __add__ (saldo c) vd = inr novo /\
    depositar agora v c =
      ((true, DepositoRealizado vd),
       mkConta novo (limite_saque c) (limite_saques_diarios c) (numero_saques c)
               (historico c ++ [mkOperacao agora DEPOSITO vd])).
Proof.
  rewrite depositar_eq.
  destruct (fst (_validar_valor v c)) as [[m|s]|vd]; try discriminate.
  destruct (__le__ vd zero) as [s|[|]] eqn:Hp; try discriminate.
  destruct (__add__ (saldo c) vd) as [s|novo] eqn:Ha; [discriminate|].
  destruct (formats_2f vd); [|discriminate].
  intros _. exists vd, novo. repeat split; first [assumption | reflexivity].
Qed.

Lemma deposito_aceito_witness :
  exists vd novo,
    fst (_validar_valor (VStr " 12,5 ") conta_padrao) = inr vd /\
    __le__ vd zero = inr false /\
    __add__ (saldo conta_padrao) vd = inr novo /\
    depositar "d1" (VStr " 12,5 ") conta_padrao =
      ((true, DepositoRealizado vd),
       mkConta novo (limite_saque conta_padrao) (limite_saques_diarios conta_padrao)
               (numero_saques conta_padrao)
               (historico conta_padrao ++ [mkOperacao "d1" DEPOSITO vd])).
Proof.
  apply (deposito_aceito "d1" (VStr " 12,5 ") conta_padrao). reflexivity.
Defined.

(** X5. No call ever changes the two limits of an account: after any session
    they are what they were before it. *)
Theorem limites_constantes (chs : list Chamada) (c : ContaBancaria) :
  limite_saque (sessao chs c) = limite_saque c /\
  limite_saques_diarios (sessao chs c) = limite_saques_diarios c.
Proof. exact (sessao_limites chs c). Qed.

(** X6. In a session on a new account the counter [numero_saques] is the
    number of SAQUE entries of the history, and each recorded DEPÓSITO or
    SAQUE entry comes from one call. *)
Theorem contador_e_historico
  (ls : Valor) (lsd : Z) (c0 : ContaBancaria) (chs : list Chamada) :
  __init__ ls lsd = Some c0 ->
  let c := sessao chs c0 in
  numero_saques c = Z.of_nat (List.length (valores_de SAQUE (historico c))) /\
  (List.length (historico c) <= List.length chs)%nat /\
  List.length (historico c) =
    (List.length (valores_de DEPOSITO (historico c)) +
     List.length (valores_de SAQUE (historico c)))%nat.
Proof.
  intros Hinit c. split; [|split].
  - exact (sessao_conta_saques ls lsd c0 chs Hinit).
  - destruct (sessao_novos chs c0) as (novos & E & L & _).
    destruct (__init___campos _ _ _ Hinit) as (_ & _ & _ & Hh).
    unfold c. rewrite E, Hh. simpl. exact L.
  - unfold valores_de. rewrite !length_map.
    induction (historico c) as [|o h IH]; [reflexivity|].
    simpl. destruct (tipo o); simpl; lia.
Qed.

Lemma contador_e_historico_witness :
  let chs := [Depositar "d" (VStr "10"); Sacar "s1" (VStr "1.00");
              Sacar "s2" (VStr "20"); Extrato; Sacar "s3" (VStr "2")] in
  let c := sessao chs conta_padrao in
  numero_saques c = Z.of_nat (List.length (valores_de SAQUE (historico c))) /\
  (List.length (historico c) <= List.length chs)%nat /\
  List.length (historico c) =
    (List.length (valores_de DEPOSITO (historico c)) +
     List.length (valores_de SAQUE (historico c)))%nat.
Proof.
  intros chs c.
  exact (contador_e_historico (VObj "500") 3 conta_padrao chs eq_refl).
Defined.

(* ================================================================== *)
(** ** More on the account: the text of an amount *)
(* ================================================================== *)

Lemma isspace_virgula (a : ascii) :
  isspace (if Ascii.eqb a "," then "."%char else a) = isspace a.
Proof.
  destruct (Ascii.eqb a ",") eqn:E; [|reflexivity].
  apply Ascii.eqb_eq in E. subst a. reflexivity.
Qed.

Lemma replace_virgula_vazio (s : string) :
  replace "," "." s = EmptyString -> s = EmptyString.
Proof. destruct s; [reflexivity|]. rewrite replace_virgula_cons. discriminate. Qed.

Lemma lstrip_replace (s : string) :
  lstrip (replace "," "." s) = replace "," "." (lstrip s).
Proof.
  induction s as [|a s IH]; [reflexivity|].
  rewrite replace_virgula_cons. cbn [lstrip].
  rewrite isspace_virgula. destruct (isspace a); [exact IH|].
  now rewrite replace_virgula_cons.
Qed.

Lemma rstrip_replace (s : string) :
  rstrip (replace "," "." s) = replace "," "." (rstrip s).
Proof.
  induction s as [|a s IH]; [reflexivity|].
  rewrite replace_virgula_cons. cbn [rstrip]. rewrite IH.
  destruct (rstrip s) as [|b t].
  - cbn [replace]. rewrite isspace_virgula.
    destruct (isspace a); [reflexivity|]. now rewrite replace_virgula_cons.
  - rewrite (replace_virgula_cons b t), (replace_virgula_cons a).
    now rewrite replace_virgula_cons.
Qed.

Lemma strip_replace (s : string) :
  strip (replace "," "." s) = replace "," "." (strip s).
Proof. unfold strip. now rewrite lstrip_replace, rstrip_replace. Qed.

Lemma replace_replace (s : string) :
  replace "," "." (replace "," "." s) = replace "," "." s.
Proof.
  induction s as [|a s IH]; [reflexivity|].
  rewrite !replace_virgula_cons, IH. f_equal.
  destruct (Ascii.eqb a ",") eqn:E; [reflexivity|]. now rewrite E.
Qed.

Lemma lstrip_inicio (s : string) :
  lstrip s = EmptyString \/ exists a r, lstrip s = String a r /\ isspace a = false.
Proof.
  induction s as [|a s IH]; [now left|].
  simpl. destruct (isspace a) eqn:E; [exact IH|].
  right. exists a, s. split; [reflexivity | exact E].
Qed.

Lemma strip_strip (s : string) : strip (strip s) = strip s.
Proof.
  unfold strip.
  assert (L : lstrip (rstrip (lstrip s)) = rstrip (lstrip s)).
  { destruct (lstrip_inicio s) as [-> | (a & r & -> & Ha)]; [reflexivity|].
    cbn [rstrip]. destruct (rstrip r); rewrite ?Ha; cbn [lstrip]; now rewrite Ha. }
  rewrite L. apply rstrip_id, rstrip_termina.
Qed.

(** Two [str] arguments that normalise to the same text are treated alike. *)
Lemma mesmo_texto_normalizado (s1 s2 agora : string) (c : ContaBancaria) :
  replace "," "." (strip s1) = replace "," "." (strip s2) ->
  _validar_valor (VStr s1) c = _validar_valor (VStr s2) c /\
  depositar agora (VStr s1) c = depositar agora (VStr s2) c /\
  sacar agora (VStr s1) c = sacar agora (VStr s2) c.
Proof.
  intros E.
  assert (V : _validar_valor (VStr s1) c = _validar_valor (VStr s2) c).
  { unfold _validar_valor. now rewrite E. }
  split; [exact V|]. now rewrite depositar_eq, sacar_eq, V, <- depositar_eq, <- sacar_eq.
Qed.

(** X7. For a [str] argument, surrounding white space and the choice between
    comma and period make no difference: the text, the stripped text and the
    text with its commas turned into periods get the same answer from
    [_validar_valor], [depositar] and [sacar], on every account. *)
Theorem normalizacao_do_texto (s agora : string) (c : ContaBancaria) :
  (_validar_valor (VStr (strip s)) c = _validar_valor (VStr s) c /\
   depositar agora (VStr (strip s)) c = depositar agora (VStr s) c /\
   sacar agora (VStr (strip s)) c = sacar agora (VStr s) c) /\
  (_validar_valor (VStr (replace "," "." s)) c = _validar_valor (VStr s) c /\
   depositar agora (VStr (replace "," "." s)) c = depositar agora (VStr s) c /\
   sacar agora (VStr (replace "," "." s)) c = sacar agora (VStr s) c).
Proof.
  split; apply mesmo_texto_normalizado.
  - now rewrite strip_strip.
  - now rewrite strip_replace, replace_replace.
Qed.

(** What validation returns for a text in the format. *)
Lemma _validar_valor_texto_valor (s ds fs : string) (c : ContaBancaria) :
  so_digitos ds = true -> ds <> EmptyString -> so_digitos fs = true ->
  (String.length fs <= 2)%nat ->
  replace "," "." (strip s) = texto_valor ds fs ->
  _validar_valor (VStr s) c =
  (inr (Finite false (int_of_digits (ds ++ fs)) (- Z.of_nat (String.length fs))), c).
Proof.
  intros Hd Hne Hf Hlen E. unfold _validar_valor, bind, ret, raise.
  rewrite E, (formato_re_match_valor ds fs Hd Hne Hf Hlen). cbn [negb str].
  now rewrite (Decimal_of_str_texto_valor ds fs Hd Hne Hf Hlen).
Qed.

(** X8. For a [str] argument in the format, the positivity check is a check
    of its digits: when they write the number zero ([0], [0,00], [000.0])
    both methods refuse with the non-positive message and leave the account
    unchanged; when they do not, neither method answers with that message. *)
Theorem texto_zero (s ds fs agora : string) (c : ContaBancaria) :
  so_digitos ds = true -> ds <> EmptyString -> so_digitos fs = true ->
  (String.length fs <= 2)%nat ->
  replace "," "." (strip s) = texto_valor ds fs ->
  (int_of_digits (ds ++ fs) = 0%N ->
     depositar agora (VStr s) c = ((false, ValorNaoPositivo), c) /\
     sacar agora (VStr s) c = ((false, ValorNaoPositivo), c)) /\
  (int_of_digits (ds ++ fs) <> 0%N ->
     mensagem (depositar agora (VStr s) c) <> ValorNaoPositivo /\
     mensagem (sacar agora (VStr s) c) <> ValorNaoPositivo).
Proof.
  intros Hd Hne Hf Hlen E.
  pose proof (_validar_valor_texto_valor s ds fs c Hd Hne Hf Hlen E) as V.
  rewrite depositar_eq, sacar_eq, V. cbn [fst].
  rewrite __le___zero_finito.
  split; intros H.
  - apply N.eqb_eq in H. rewrite H. split; reflexivity.
  - apply N.eqb_neq in H. rewrite H. split.
    + destruct (__add__ _ _); [discriminate|].
      destruct (formats_2f _); discriminate.
    + destruct (_ >=? _); [discriminate|].
      destruct (__gt__ _ (limite_saque c)) as [?|[|]];
        [discriminate | destruct (formats_2f _); discriminate |].
      destruct (__gt__ _ (saldo c)) as [?|[|]];
        [discriminate | destruct (formats_2f _); discriminate |].
      destruct (__sub__ _ _); [discriminate|].
      destruct (formats_2f _); discriminate.
Qed.

Lemma texto_zero_witness :
  (depositar "t" (VStr " 000,0 ") conta_padrao = ((false, ValorNaoPositivo), conta_padrao) /\
   sacar "t" (VStr " 000,0 ") conta_padrao = ((false, ValorNaoPositivo), conta_padrao)) /\
  (mensagem (depositar "t" (VStr "0.01") conta_padrao) <> ValorNaoPositivo /\
   mensagem (sacar "t" (VStr "0.01") conta_padrao) <> ValorNaoPositivo).
Proof.
  split.
  - apply (proj1 (texto_zero " 000,0 " "000" "0" "t" conta_padrao
                    eq_refl ltac:(discriminate) eq_refl ltac:(simpl; lia) eq_refl)).
    reflexivity.
  - apply (proj2 (texto_zero "0.01" "0" "01" "t" conta_padrao
                    eq_refl ltac:(discriminate) eq_refl ltac:(simpl; lia) eq_refl)).
    discriminate.
Defined.

(* ================================================================== *)
(** ** More on the account: what a text amount can meet *)
(* ================================================================== *)

(** Validation of a [str]: the format message, or a finite value with a
    positive sign and at most two fractional digits. *)
Lemma _validar_valor_texto_casos (s : string) (c : ContaBancaria) :
  _validar_valor (VStr s) c = (inl (ValueError FormatoInvalido), c) \/
  exists n e, _validar_valor (VStr s) c = (inr (Finite false n e), c) /\ -2 <= e <= 0.
Proof.
  destruct (re_match_valor (replace "," "." (strip s))) eqn:Em.
  - right.
    destruct (re_match_valor_formato _ (normalizado_sem_newline s) Em)
      as (ds & fs & H1 & H2 & H3 & H4 & H5).
    eexists _, _. split.
    + exact (_validar_valor_texto_valor s ds fs c H1 H2 H3 H4 H5).
    + lia.
  - left. unfold _validar_valor, bind, raise. now rewrite Em.
Qed.

Lemma _fix_sinal (d : Decimal) (s : Signal) : _fix d = inl s -> s = Overflow.
Proof.
  destruct d as [sg c e| |]; simpl; try discriminate.
  destruct (c =? 0)%N; [discriminate|].
  destruct (_ >? Etop); [congruence|].
  destruct (_ <? _); [|discriminate].
  destruct (ndigits _ >? prec); [|discriminate].
  destruct (_ >? Etop); [congruence | discriminate].
Qed.

(** X9. In a session on a new account whose per-withdrawal limit is a number
    in the range of the decimal context (or an infinity), [sacar] with a
    [str] argument never answers with the unexpected-error message, with the
    not-a-number message or with the text of a formatting error: it
    succeeds, or it fails with one of the five kinds of error. *)
Theorem saque_de_texto
  (ls : Valor) (lsd : Z) (c0 : ContaBancaria) (chs : list Chamada)
  (agora s : string) :
  __init__ ls lsd = Some c0 ->
  no_alcance (limite_saque c0) ->
  let r := sacar agora (VStr s) (sessao chs c0) in
  sucesso r = true \/
  (sucesso r = false /\
   (mensagem r = FormatoInvalido \/
    mensagem r = ValorNaoPositivo \/
    mensagem r = LimiteSaquesExcedido lsd \/
    mensagem r = ValorExcedeLimite (limite_saque c0) \/
    mensagem r = SaldoInsuficiente (saldo (sessao chs c0)))).
Proof.
  intros Hinit Hlim.
  destruct (sessao_invariante_conta ls lsd c0 chs Hinit) as (Hs & _ & _).
  destruct (sessao_limites chs c0) as [El Ed].
  destruct (__init___campos _ _ _ Hinit) as (_ & Hd & _ & _).
  set (c := sessao chs c0) in *. cbv zeta.
  rewrite sacar_eq.
  destruct (_validar_valor_texto_casos s c) as [V | (n & e & V & He)];
    rewrite V; cbn [fst].
  { right. split; [reflexivity | now left]. }
  rewrite __le___zero_finito.
  destruct (N.eqb_spec n 0) as [Hn | Hn].
  { right. split; [reflexivity | right; now left]. }
  destruct (numero_saques c >=? limite_saques_diarios c).
  { right. split; [reflexivity|]. right. right. left. cbn. now rewrite Ed, Hd. }
  rewrite <- El in Hlim.
  rewrite (no_alcance_formata _ Hlim),
    (no_alcance_formata _ (saldo_valido_no_alcance _ Hs)),
    (duas_casas_formata false n e He).
  destruct (__gt___definido (Finite false n e) (limite_saque c) eq_refl
              (no_alcance_nao_nan _ Hlim)) as [b3 E3].
  rewrite E3. destruct b3.
  { right. split; [reflexivity|]. do 3 right. left. cbn. now rewrite El. }
  destruct (__gt___definido (Finite false n e) (saldo c) eq_refl
              (saldo_valido_nao_nan _ Hs)) as [b4 E4].
  rewrite E4. destruct b4.
  { right. split; [reflexivity|]. do 4 right. reflexivity. }
  assert (Hp : __le__ (Finite false n e) zero = inr false).
  { rewrite __le___zero_finito. f_equal. now apply N.eqb_neq. }
  destruct (__sub___definido (saldo c) (Finite false n e) Hs Hp E4)
    as [(_ & Ev & _) | (novo & Es)]; [discriminate Ev|].
  rewrite Es. left. reflexivity.
Qed.

Lemma saque_de_texto_witness :
  let r := sacar "s1" (VStr "12,345")
             (sessao [Depositar "d1" (VObj "inf")] conta_padrao) in
  sucesso r = true \/
  (sucesso r = false /\
   (mensagem r = FormatoInvalido \/
    mensagem r = ValorNaoPositivo \/
    mensagem r = LimiteSaquesExcedido 3 \/
    mensagem r = ValorExcedeLimite (limite_saque conta_padrao) \/
    mensagem r = SaldoInsuficiente
                   (saldo (sessao [Depositar "d1" (VObj "inf")] conta_padrao)))).
Proof.
  apply (saque_de_texto (VObj "500") 3 conta_padrao [Depositar "d1" (VObj "inf")]
                        "s1" "12,345" eq_refl).
  right. apply Z.leb_le. reflexivity.
Defined.

(** X10. In a session on a new account, [depositar] with a [str] argument
    succeeds, or fails with the format message, with the non-positive
    message, or, when the sum is beyond what the context can hold, with the
    unexpected-error message for Overflow; it fails in no other way. *)
Theorem deposito_de_texto
  (ls : Valor) (lsd : Z) (c0 : ContaBancaria) (chs : list Chamada)
  (agora s : string) :
  __init__ ls lsd = Some c0 ->
  let r := depositar agora (VStr s) (sessao chs c0) in
  sucesso r = true \/
  (sucesso r = false /\
   (mensagem r = FormatoInvalido \/
    mensagem r = ValorNaoPositivo \/
    mensagem r = ErroInesperado Overflow)).
Proof.
  intros Hinit.
  destruct (sessao_invariante_conta ls lsd c0 chs Hinit) as (Hs & _ & _).
  set (c := sessao chs c0) in *. cbv zeta.
  rewrite depositar_eq.
  destruct (_validar_valor_texto_casos s c) as [V | (n & e & V & He)];
    rewrite V; cbn [fst].
  { right. split; [reflexivity | now left]. }
  rewrite __le___zero_finito.
  destruct (N.eqb_spec n 0) as [Hn | Hn].
  { right. split; [reflexivity | right; now left]. }
  rewrite (duas_casas_formata false n e He).
  destruct (__add__ (saldo c) (Finite false n e)) as [sg|novo] eqn:Ea;
    [|left; reflexivity].
  right. split; [reflexivity|]. right. right. cbn. f_equal.
  destruct (saldo c) as [s1 c1 e1|s1|s1 g1 d1]; simpl in Hs; [| |contradiction].
  - unfold __add__ in Ea. cbn [_check_nans] in Ea. exact (_fix_sinal _ _ Ea).
  - discriminate Ea.
Qed.

Lemma deposito_de_texto_witness :
  let r := depositar "d2" (VStr "abc")
             (sessao [Depositar "d1" (VStr "1")] conta_padrao) in
  sucesso r = true \/
  (sucesso r = false /\
   (mensagem r = FormatoInvalido \/
    mensagem r = ValorNaoPositivo \/
    mensagem r = ErroInesperado Overflow)).
Proof.
  exact (deposito_de_texto (VObj "500") 3 conta_padrao [Depositar "d1" (VStr "1")]
                           "d2" "abc" eq_refl).
Defined.

(** X11. Below the precision of the context a deposit cannot fail: in a
    session on a new account whose recorded amounts all have at most two
    fractional digits, a positive amount with at most two fractional digits
    that keeps the recorded deposits below 10^28 hundredths is accepted, and
    the new balance is, in hundredths, the recorded deposits minus the
    recorded withdrawals plus the amount. *)
Theorem deposito_dentro_da_precisao
  (ls : Valor) (lsd : Z) (c0 : ContaBancaria) (chs : list Chamada)
  (agora : string) (v : Valor) (vd : Decimal) :
  __init__ ls lsd = Some c0 ->
  let c := sessao chs c0 in
  Forall (fun o => duas_casas (valor o) = true) (historico c) ->
  fst (_validar_valor v c) = inr vd ->
  __le__ vd zero = inr false ->
  duas_casas vd = true ->
  total_centavos (valores_de DEPOSITO (historico c)) + centavos vd < 10 ^ 28 ->
  let r := depositar agora v c in
  sucesso r = true /\
  saldo (estado r) =
    Finite false
      (Z.to_N (total_centavos (valores_de DEPOSITO (historico c))
               - total_centavos (valores_de SAQUE (historico c))
               + centavos vd)) (-2) /\
  historico (estado r) = (historico c ++ [mkOperacao agora DEPOSITO vd])%list.
Proof.
  intros Hinit c HF Hv Hp Hd Hlt.
  destruct (sessao_invariante_conta ls lsd c0 chs Hinit) as (_ & _ & Hc).
  fold c in Hc.
  destruct (centavos_positivo vd Hp Hd) as (c2 & e2 & -> & He & Hcv & Hpos).
  destruct (Hc HF ltac:(lia)) as [Hb Es].
  assert (Hf : formats_2f (Finite false c2 e2) = true).
  { apply no_alcance_formata. right.
    pose proof (pow10_pos (e2 + 2) ltac:(lia)) as P.
    assert (Hc2 : 0 < Z.of_N c2) by nia.
    assert (D : ndigits (Z.of_N c2 * 10 ^ (e2 + 2)) <= 28)
      by (apply ndigits_le; lia).
    rewrite ndigits_shift in D by lia. contexto. lia. }
  cbv zeta. rewrite depositar_eq, Hv, Hp, Es, Hf.
  rewrite __add___centavos by lia.
  rewrite Hcv. repeat split.
Qed.

Lemma deposito_dentro_da_precisao_witness :
  let c := sessao [Depositar "d1" (VStr "100.00"); Sacar "s1" (VStr "30,5")]
                  conta_padrao in
  let r := depositar "d2" (VStr "0.75") c in
  sucesso r = true /\
  saldo (estado r) =
    Finite false
      (Z.to_N (total_centavos (valores_de DEPOSITO (historico c))
               - total_centavos (valores_de SAQUE (historico c))
               + centavos (Finite false 75 (-2)))) (-2) /\
  historico (estado r) =
    (historico c ++ [mkOperacao "d2" DEPOSITO (Finite false 75 (-2))])%list.
Proof.
  intros c.
  apply (deposito_dentro_da_precisao (VObj "500") 3 conta_padrao
           [Depositar "d1" (VStr "100.00"); Sacar "s1" (VStr "30,5")]
           "d2" (VStr "0.75") (Finite false 75 (-2)) eq_refl).
  - repeat constructor.
  - reflexivity.
  - reflexivity.
  - reflexivity.
  - reflexivity.
Defined.

(* ================================================================== *)
(** ** The shell, reading by reading *)
(* ================================================================== *)

Lemma _exibir_menu_eq c tk rel n tl :
  _exibir_menu (mkSistema c tk rel n tl) =
  match tk with
  | [] => (inl EOFError, mkSistema c [] rel n (tl ++ tela_do_menu))
  | Linha t :: r =>
      (inr (strip (str_lower t)), mkSistema c r rel n (tl ++ tela_do_menu))
  | CtrlC :: r => (inl KeyboardInterrupt, mkSistema c r rel n (tl ++ tela_do_menu))
  | CtrlD :: r => (inl EOFError, mkSistema c r rel n (tl ++ tela_do_menu))
  end.
Proof.
  destruct tk as [|[t| |] r]; cbv - [strip str_lower app];
    repeat rewrite <- app_assoc; reflexivity.
Qed.

Lemma _processar_deposito_eq c tk rel n tl :
  _processar_deposito (mkSistema c tk rel n tl) =
  let tl' := (tl ++ [CabecalhoDeposito; Prompt PerguntaDeposito])%list in
  match tk with
  | [] => (inl EOFError, mkSistema c [] rel n tl')
  | CtrlC :: r => (inl KeyboardInterrupt, mkSistema c r rel n tl')
  | CtrlD :: r => (inl EOFError, mkSistema c r rel n tl')
  | Linha v :: r =>
      if is_empty (strip v) then
        (inr false, mkSistema c r rel n (tl' ++ [OperacaoCancelada]))
      else
        let res := depositar (rel n) (VStr (strip v)) c in
        (inr false,
         mkSistema (snd res) r rel (if fst (fst res) then S n else n)
                   (tl' ++ [imprime_resposta (fst res)]))
  end.
Proof.
  destruct tk as [|[v| |] r];
    unfold _processar_deposito, input; unfold io_bind, print, io_ret;
    cbn [conta teclado relogio leituras_do_relogio tela fst snd];
    repeat rewrite <- app_assoc; try reflexivity.
  cbn [app]. destruct (is_empty (strip v)).
  - cbn [conta teclado relogio leituras_do_relogio tela].
    repeat rewrite <- app_assoc. reflexivity.
  - unfold chamar_conta, imprime_resposta.
    cbn [conta teclado relogio leituras_do_relogio tela fst snd].
    destruct (depositar (rel n) (VStr (strip v)) c) as [[ok m] c'].
    cbn [fst snd]. destruct ok;
      cbn [conta teclado relogio leituras_do_relogio tela];
      repeat rewrite <- app_assoc; reflexivity.
Qed.

Lemma _processar_saque_eq c tk rel n tl :
  _processar_saque (mkSistema c tk rel n tl) =
  let tl' := (tl ++ tela_do_saque c)%list in
  match tk with
  | [] => (inl EOFError, mkSistema c [] rel n tl')
  | CtrlC :: r => (inl KeyboardInterrupt, mkSistema c r rel n tl')
  | CtrlD :: r => (inl EOFError, mkSistema c r rel n tl')
  | Linha v :: r =>
      if is_empty (strip v) then
        (inr false, mkSistema c r rel n (tl' ++ [OperacaoCancelada]))
      else
        let res := sacar (rel n) (VStr (strip v)) c in
        (inr false,
         mkSistema (snd res) r rel (if fst (fst res) then S n else n)
                   (tl' ++ [imprime_resposta (fst res)]))
  end.
Proof.
  destruct tk as [|[v| |] r];
    unfold _processar_saque, input; unfold io_bind, print, io_ret, ler_conta, tela_do_saque;
    cbn [conta teclado relogio leituras_do_relogio tela fst snd];
    repeat rewrite <- app_assoc; try reflexivity.
  cbn [app]. destruct (is_empty (strip v)).
  - cbn [conta teclado relogio leituras_do_relogio tela].
    repeat rewrite <- app_assoc. reflexivity.
  - unfold chamar_conta, imprime_resposta.
    cbn [conta teclado relogio leituras_do_relogio tela fst snd].
    destruct (sacar (rel n) (VStr (strip v)) c) as [[ok m] c'].
    cbn [fst snd]. destruct ok;
      cbn [conta teclado relogio leituras_do_relogio tela];
      repeat rewrite <- app_assoc; reflexivity.
Qed.

Lemma _processar_extrato_eq c tk rel n tl :
  _processar_extrato (mkSistema c tk rel n tl) =
  if extrato_formata c then
    (inr false,
     mkSistema c tk rel n
       (tl ++ [ImprimeExtrato (cabecalho_extrato ++ corpo_extrato (historico c)
                               ++ rodape_extrato c)]))
  else
    (inl (ExcecaoDaConta (ValueError LimitesDeFormatacao)), mkSistema c tk rel n tl).
Proof.
  unfold _processar_extrato, io_bind, chamar_extrato, print, io_ret.
  cbn [conta teclado relogio leituras_do_relogio tela].
  rewrite obter_extrato_eq. destruct (extrato_formata c); reflexivity.
Qed.

Lemma _processar_saida_eq c tk rel n tl :
  _processar_saida (mkSistema c tk rel n tl) =
  (inr true, mkSistema c tk rel n (tl ++ [Agradecimento; SessaoEncerrada])).
Proof.
  unfold _processar_saida, io_bind, print, io_ret.
  cbn [conta teclado relogio leituras_do_relogio tela].
  repeat rewrite <- app_assoc. reflexivity.
Qed.

(** The keys of [menu_opcoes]. *)
Lemma dict_get_menu (opcao : string) :
  dict_get opcao menu_opcoes =
  if String.eqb opcao "d" then Some ("Depositar"%string, ProcessarDeposito)
  else if String.eqb opcao "s" then Some ("Sacar"%string, ProcessarSaque)
  else if String.eqb opcao "e" then Some ("Extrato"%string, ProcessarExtrato)
  else if String.eqb opcao "q" then Some ("Sair"%string, ProcessarSaida)
  else None.
Proof. reflexivity. Qed.

(** One turn of the loop, reading by reading. *)
Lemma iteracao_eq c tk rel n tl :
  iteracao (mkSistema c tk rel n tl) =
  let tm := (tl ++ tela_do_menu)%list in
  match tk with
  | [] => (Continua, mkSistema c [] rel n (tm ++ [ErroInesperadoNoLaco EOFError]))
  | CtrlC :: r => (Para, mkSistema c r rel n (tm ++ [CanceladoPeloUsuario]))
  | CtrlD :: r => (Continua, mkSistema c r rel n (tm ++ [ErroInesperadoNoLaco EOFError]))
  | Linha t :: r =>
      let opcao := strip (str_lower t) in
      if String.eqb opcao "d" then
        apos_acao (_processar_deposito (mkSistema c r rel n tm))
      else if String.eqb opcao "s" then
        apos_acao (_processar_saque (mkSistema c r rel n tm))
      else if String.eqb opcao "e" then
        apos_acao (_processar_extrato (mkSistema c r rel n tm))
      else if String.eqb opcao "q" then
        (Para, mkSistema c r rel n (tm ++ [Agradecimento; SessaoEncerrada]))
      else
        (Continua, mkSistema c r rel n (tm ++ [OpcaoInvalida]))
  end.
Proof.
  unfold iteracao, corpo_do_laco, io_bind. rewrite _exibir_menu_eq.
  destruct tk as [|[t| |] r]; try reflexivity.
  cbv zeta. rewrite dict_get_menu.
  set (opcao := strip (str_lower t)).
  set (s1 := mkSistema c r rel n (tl ++ tela_do_menu)).
  destruct (String.eqb_spec opcao "d") as [Ed|Nd].
  { rewrite Ed. cbn [String.eqb Ascii.eqb Bool.eqb executar_acao].
    unfold apos_acao.
    destruct (_processar_deposito s1) as [[[]|b] s2]; reflexivity. }
  destruct (String.eqb_spec opcao "s") as [Es|Ns].
  { rewrite Es. cbn [String.eqb Ascii.eqb Bool.eqb executar_acao].
    unfold apos_acao.
    destruct (_processar_saque s1) as [[[]|b] s2]; reflexivity. }
  destruct (String.eqb_spec opcao "e") as [Ee|Ne].
  { rewrite Ee. cbn [String.eqb Ascii.eqb Bool.eqb executar_acao].
    unfold apos_acao.
    destruct (_processar_extrato s1) as [[[]|b] s2]; reflexivity. }
  destruct (String.eqb_spec opcao "q") as [Eq|Nq].
  { cbn [executar_acao]. unfold s1. rewrite _processar_saida_eq. reflexivity. }
  reflexivity.
Qed.

Lemma passo_sem_chamada c tk lidas r rel n tl novas f :
  tk = (lidas ++ r)%list -> lidas <> [] -> (In CtrlC lidas -> f = Para) ->
  passo_do_sistema (mkSistema c tk rel n tl) f (mkSistema c r rel n (tl ++ novas)).
Proof.
  intros E Hne Hc. unfold passo_do_sistema.
  cbn [conta teclado relogio leituras_do_relogio tela].
  split; [reflexivity|]. split; [|split].
  - exists lidas. repeat split; auto.
  - exists novas. reflexivity.
  - now left.
Qed.

Lemma nao_interrompe (l : list Leitura) (f : Fluxo) :
  (forall x, In x l -> x <> CtrlC) -> In CtrlC l -> f = Para.
Proof. intros H Hin. exfalso. exact (H _ Hin eq_refl). Qed.

(** Every turn of the loop is a step of the system. *)
Lemma iteracao_passo (s : Sistema) :
  passo_do_sistema s (fst (iteracao s)) (snd (iteracao s)).
Proof.
  destruct s as [c tk rel n tl]. rewrite iteracao_eq. cbv zeta.
  destruct tk as [|[t| |] r].
  - (* the script is over *)
    unfold passo_do_sistema. cbn [fst snd conta teclado relogio tela].
    split; [reflexivity|]. split; [|split].
    + exists []. repeat split; [intros H; now elim H | intros []].
    + eexists. rewrite <- app_assoc. reflexivity.
    + now left.
  - set (opcao := strip (str_lower t)).
    destruct (String.eqb opcao "d").
    { rewrite _processar_deposito_eq. cbv zeta.
      destruct r as [|[v| |] r']; cbn [apos_acao fst snd print tela conta teclado relogio leituras_do_relogio].
      - rewrite <- !app_assoc.
        apply (passo_sem_chamada _ _ [Linha t]); [reflexivity | discriminate |].
        apply nao_interrompe. intros x [<-|[]]; discriminate.
      - destruct (is_empty (strip v)) eqn:Ev; cbn [apos_acao fst snd].
        + rewrite <- !app_assoc.
          apply (passo_sem_chamada _ _ [Linha t; Linha v]); [reflexivity | discriminate |].
          apply nao_interrompe. intros x [<-|[<-|[]]]; discriminate.
        + unfold passo_do_sistema.
          cbn [conta teclado relogio leituras_do_relogio tela].
          split; [reflexivity|]. split; [|split].
          * exists [Linha t; Linha v]. repeat split; [discriminate|].
            apply nao_interrompe. intros x [<-|[<-|[]]]; discriminate.
          * eexists. rewrite <- !app_assoc. reflexivity.
          * right. exists (Depositar (rel n) (VStr (strip v))).
            split; [|reflexivity]. split; [|apply strip_strip].
            intros E. rewrite E in Ev. discriminate Ev.
      - rewrite <- !app_assoc.
        apply (passo_sem_chamada _ _ [Linha t; CtrlC]); [reflexivity | discriminate |].
        reflexivity.
      - rewrite <- !app_assoc.
        apply (passo_sem_chamada _ _ [Linha t; CtrlD]); [reflexivity | discriminate |].
        apply nao_interrompe. intros x [<-|[<-|[]]]; discriminate. }
    destruct (String.eqb opcao "s").
    { rewrite _processar_saque_eq. cbv zeta.
      destruct r as [|[v| |] r']; cbn [apos_acao fst snd print tela conta teclado relogio leituras_do_relogio].
      - rewrite <- !app_assoc.
        apply (passo_sem_chamada _ _ [Linha t]); [reflexivity | discriminate |].
        apply nao_interrompe. intros x [<-|[]]; discriminate.
      - destruct (is_empty (strip v)) eqn:Ev; cbn [apos_acao fst snd].
        + rewrite <- !app_assoc.
          apply (passo_sem_chamada _ _ [Linha t; Linha v]); [reflexivity | discriminate |].
          apply nao_interrompe. intros x [<-|[<-|[]]]; discriminate.
        + unfold passo_do_sistema.
          cbn [conta teclado relogio leituras_do_relogio tela].
          split; [reflexivity|]. split; [|split].
          * exists [Linha t; Linha v]. repeat split; [discriminate|].
            apply nao_interrompe. intros x [<-|[<-|[]]]; discriminate.
          * eexists. rewrite <- !app_assoc. reflexivity.
          * right. exists (Sacar (rel n) (VStr (strip v))).
            split; [|reflexivity]. split; [|apply strip_strip].
            intros E. rewrite E in Ev. discriminate Ev.
      - rewrite <- !app_assoc.
        apply (passo_sem_chamada _ _ [Linha t; CtrlC]); [reflexivity | discriminate |].
        reflexivity.
      - rewrite <- !app_assoc.
        apply (passo_sem_chamada _ _ [Linha t; CtrlD]); [reflexivity | discriminate |].
        apply nao_interrompe. intros x [<-|[<-|[]]]; discriminate. }
    destruct (String.eqb opcao "e").
    { rewrite _processar_extrato_eq.
      destruct (extrato_formata c);
        cbn [apos_acao fst snd print tela conta teclado relogio leituras_do_relogio];
        rewrite <- !app_assoc;
        (apply (passo_sem_chamada _ _ [Linha t]); [reflexivity | discriminate |]);
        apply nao_interrompe; intros x [<-|[]]; discriminate. }
    destruct (String.eqb opcao "q"); cbn [fst snd]; rewrite <- !app_assoc;
      (apply (passo_sem_chamada _ _ [Linha t]); [reflexivity | discriminate |]).
    + reflexivity.
    + apply nao_interrompe. intros x [<-|[]]; discriminate.
  - cbn [fst snd]. rewrite <- !app_assoc.
    apply (passo_sem_chamada _ _ [CtrlC]); [reflexivity | discriminate | reflexivity].
  - cbn [fst snd]. rewrite <- !app_assoc.
    apply (passo_sem_chamada _ _ [CtrlD]); [reflexivity | discriminate |].
    apply nao_interrompe. intros x [<-|[]]; discriminate.
Qed.

(* ================================================================== *)
(** ** The shell: one turn of the loop *)
(* ================================================================== *)

(** X12. A line at the menu that, lowered and stripped, is none of [d], [s],
    [e], [q] only prints the invalid-option message after the menu: the loop
    goes on, the line is consumed, the account and the clock are untouched. *)
Theorem opcao_desconhecida (s : Sistema) (t : string) (r : list Leitura) :
  teclado s = Linha t :: r ->
  dict_get (strip (str_lower t)) menu_opcoes = None ->
  iteracao s =
    (Continua,
     mkSistema (conta s) r (relogio s) (leituras_do_relogio s)
               ((tela s ++ tela_do_menu) ++ [OpcaoInvalida])).
Proof.
  destruct s as [c tk rel n tl]. cbn [teclado conta relogio leituras_do_relogio tela].
  intros -> H. rewrite iteracao_eq. cbv zeta.
  rewrite dict_get_menu in H.
  destruct (String.eqb _ "d"); [discriminate|].
  destruct (String.eqb _ "s"); [discriminate|].
  destruct (String.eqb _ "e"); [discriminate|].
  destruct (String.eqb _ "q"); [discriminate|].
  reflexivity.
Qed.

Lemma opcao_desconhecida_witness :
  let s := sistema_novo [Linha " Depositar "; Linha "d"] (fun _ => "agora"%string) in
  iteracao s =
    (Continua,
     mkSistema (conta s) [Linha "d"] (relogio s) (leituras_do_relogio s)
               ((tela s ++ tela_do_menu) ++ [OpcaoInvalida])).
Proof.
  intro s.
  exact (opcao_desconhecida s " Depositar " [Linha "d"] eq_refl eq_refl).
Defined.

(** X13. At the prompt of a deposit or of a withdrawal, a line that is empty
    once stripped cancels the operation: no method of the account is called,
    the account and the clock are as before, both lines are consumed and the
    loop goes on. *)
Theorem valor_vazio_cancela (s : Sistema) (t v : string) (r : list Leitura) :
  teclado s = Linha t :: Linha v :: r ->
  strip (str_lower t) = "d"%string \/ strip (str_lower t) = "s"%string ->
  strip v = EmptyString ->
  exists novas,
    iteracao s =
      (Continua,
       mkSistema (conta s) r (relogio s) (leituras_do_relogio s)
                 (tela s ++ novas ++ [OperacaoCancelada])).
Proof.
  destruct s as [c tk rel n tl]. cbn [teclado conta relogio leituras_do_relogio tela].
  intros -> Ho Hv. rewrite iteracao_eq. cbv zeta.
  destruct Ho as [-> | ->]; cbn [String.eqb Ascii.eqb Bool.eqb].
  - rewrite _processar_deposito_eq. cbv zeta. rewrite Hv. cbn [is_empty apos_acao].
    exists (tela_do_menu ++ [CabecalhoDeposito; Prompt PerguntaDeposito])%list.
    rewrite <- !app_assoc. reflexivity.
  - rewrite _processar_saque_eq. cbv zeta. rewrite Hv. cbn [is_empty apos_acao].
    exists (tela_do_menu ++ tela_do_saque c)%list.
    rewrite <- !app_assoc. reflexivity.
Qed.

Lemma valor_vazio_cancela_witness :
  let s := sistema_novo [Linha "S"; Linha "   "; Linha "q"] (fun _ => "agora"%string) in
  exists novas,
    iteracao s =
      (Continua,
       mkSistema (conta s) [Linha "q"] (relogio s) (leituras_do_relogio s)
                 (tela s ++ novas ++ [OperacaoCancelada])).
Proof.
  intro s.
  exact (valor_vazio_cancela s "S" "   " [Linha "q"] eq_refl (or_intror eq_refl) eq_refl).
Defined.

(** X14. The loop stops on the option [q] and on an interrupt, at the menu
    or at the prompt of an amount; in each case the account is left as it
    was and what follows in the script is not read. *)
Theorem sair_ou_interromper (s : Sistema) (t : string) (r : list Leitura) :
  (teclado s = Linha t :: r -> strip (str_lower t) = "q"%string ->
     iteracao s =
       (Para, mkSistema (conta s) r (relogio s) (leituras_do_relogio s)
                        ((tela s ++ tela_do_menu) ++ [Agradecimento; SessaoEncerrada]))) /\
  (teclado s = CtrlC :: r ->
     iteracao s =
       (Para, mkSistema (conta s) r (relogio s) (leituras_do_relogio s)
                        ((tela s ++ tela_do_menu) ++ [CanceladoPeloUsuario]))) /\
  (teclado s = Linha t :: CtrlC :: r ->
   strip (str_lower t) = "d"%string \/ strip (str_lower t) = "s"%string ->
     exists novas,
       iteracao s =
         (Para, mkSistema (conta s) r (relogio s) (leituras_do_relogio s)
                          (tela s ++ novas ++ [CanceladoPeloUsuario]))).
Proof.
  destruct s as [c tk rel n tl]. cbn [teclado conta relogio leituras_do_relogio tela].
  split; [|split].
  - intros -> Ho. rewrite iteracao_eq. cbv zeta. rewrite Ho. reflexivity.
  - intros ->. rewrite iteracao_eq. reflexivity.
  - intros -> Ho. rewrite iteracao_eq. cbv zeta.
    destruct Ho as [-> | ->]; cbn [String.eqb Ascii.eqb Bool.eqb].
    + rewrite _processar_deposito_eq. cbv zeta.
      cbn [apos_acao print snd conta teclado relogio leituras_do_relogio tela].
      exists (tela_do_menu ++ [CabecalhoDeposito; Prompt PerguntaDeposito])%list.
      rewrite <- !app_assoc. reflexivity.
    + rewrite _processar_saque_eq. cbv zeta.
      cbn [apos_acao print snd conta teclado relogio leituras_do_relogio tela].
      exists (tela_do_menu ++ tela_do_saque c)%list.
      rewrite <- !app_assoc. reflexivity.
Qed.

Lemma sair_ou_interromper_witness :
  let s := sistema_novo [Linha " Q "; Linha "d"; Linha "10"] (fun _ => "agora"%string) in
  iteracao s =
    (Para, mkSistema (conta s) [Linha "d"; Linha "10"] (relogio s)
                     (leituras_do_relogio s)
                     ((tela s ++ tela_do_menu) ++ [Agradecimento; SessaoEncerrada])).
Proof.
  intro s.
  exact (proj1 (sair_ou_interromper s " Q " [Linha "d"; Linha "10"]) eq_refl eq_refl).
Defined.

(* ================================================================== *)
(** ** The shell: the loop *)
(* ================================================================== *)

Lemma laco_sem_entrada c rel k tl (n : nat) :
  laco n (mkSistema c [] rel k tl) =
  (Continua, mkSistema c [] rel k (tl ++ tela_sem_entrada n)).
Proof.
  revert tl. induction n as [|n IH]; intros tl.
  - simpl. now rewrite app_nil_r.
  - cbn [laco]. rewrite iteracao_eq. cbv beta iota zeta. rewrite IH.
    cbn [tela_sem_entrada]. now rewrite <- !app_assoc.
Qed.

(** X15. When the script is over, as when standard input is closed, the loop
    never stops: [EOFError] is caught by the catch-all clause, so every turn
    prints the menu and the unexpected-error message and goes on, with the
    account and the clock untouched, for any number of turns. *)
Theorem entrada_encerrada_nao_termina (s : Sistema) (voltas : nat) :
  teclado s = [] ->
  executar voltas s =
    (Continua,
     mkSistema (conta s) [] (relogio s) (leituras_do_relogio s)
               ((tela s ++ [BemVindo]) ++ tela_sem_entrada voltas)).
Proof.
  destruct s as [c tk rel k tl]. cbn [teclado conta relogio leituras_do_relogio tela].
  intros ->. unfold executar, print.
  cbn [snd conta teclado relogio leituras_do_relogio tela].
  apply laco_sem_entrada.
Qed.

Lemma entrada_encerrada_nao_termina_witness :
  let s := sistema_novo [] (fun _ => "agora"%string) in
  executar 3 s =
    (Continua,
     mkSistema (conta s) [] (relogio s) (leituras_do_relogio s)
               ((tela s ++ [BemVindo]) ++ tela_sem_entrada 3)).
Proof.
  intro s. exact (entrada_encerrada_nao_termina s 3 eq_refl).
Defined.

Lemma laco_interrompido (n : nat) (s : Sistema) :
  In CtrlC (teclado s) -> (List.length (teclado s) <= n)%nat ->
  fst (laco n s) = Para.
Proof.
  revert s. induction n as [|n IH]; intros s Hin Hlen.
  - destruct (teclado s); [elim Hin | simpl in Hlen; lia].
  - cbn [laco]. pose proof (iteracao_passo s) as P.
    destruct (iteracao s) as [f s']. cbn [fst snd] in P.
    destruct P as (_ & (lidas & El & Hne & Hc) & _ & _).
    destruct f; [|reflexivity].
    assert (Hl : lidas <> []) by (apply Hne; intros E; rewrite E in Hin; elim Hin).
    rewrite El in Hin, Hlen. apply in_app_or in Hin as [Hin|Hin].
    + specialize (Hc Hin). discriminate Hc.
    + apply IH; [exact Hin|]. rewrite length_app in Hlen.
      destruct lidas; [congruence | simpl in Hlen; lia].
Qed.

(** X16. An interrupt always ends the program: if the script has an
    interrupt anywhere, [executar] stops within as many turns as the script
    has readings. *)
Theorem interrupcao_termina (s : Sistema) (voltas : nat) :
  In CtrlC (teclado s) -> (List.length (teclado s) <= voltas)%nat ->
  fst (executar voltas s) = Para.
Proof.
  intros Hin Hlen. unfold executar. apply laco_interrompido; assumption.
Qed.

Lemma interrupcao_termina_witness :
  fst (executar 4 (sistema_novo [Linha "d"; Linha "10"; Linha "x"; CtrlC]
                                (fun _ => "agora"%string))) = Para.
Proof.
  apply interrupcao_termina; [simpl; tauto | simpl; lia].
Defined.

Lemma laco_chamadas (n : nat) (s : Sistema) :
  exists chs,
    Forall chamada_do_sistema chs /\ (List.length chs <= n)%nat /\
    conta (snd (laco n s)) = sessao chs (conta s).
Proof.
  revert s. induction n as [|n IH]; intros s.
  - exists []. repeat split; [constructor | simpl; lia].
  - cbn [laco]. pose proof (iteracao_passo s) as P.
    destruct (iteracao s) as [f s']. cbn [fst snd] in P.
    destruct P as (_ & _ & _ & Hc).
    destruct f.
    + destruct (IH s') as (chs & F & L & E).
      destruct Hc as [Ec | (ch & Hch & Ec)].
      * exists chs. rewrite E, Ec. repeat split; [exact F | lia].
      * exists (ch :: chs). rewrite E, Ec.
        repeat split; [constructor; assumption | simpl; lia].
    + cbn [snd]. destruct Hc as [Ec | (ch & Hch & Ec)].
      * exists []. rewrite Ec. repeat split; [constructor | simpl; lia].
      * exists [ch]. rewrite Ec.
        repeat split; [repeat constructor; assumption | simpl; lia].
Qed.

(** X17. Whatever is typed, the shell changes its account only through
    [depositar] and [sacar] called with a [str] that is stripped and not
    empty (and through [obter_extrato]): after any number of turns the
    account is the one a session of such calls gives, with at most one call
    per turn. *)
Theorem conta_so_por_chamadas_de_texto (s : Sistema) (voltas : nat) :
  exists chs,
    Forall chamada_do_sistema chs /\ (List.length chs <= voltas)%nat /\
    conta (snd (executar voltas s)) = sessao chs (conta s).
Proof.
  unfold executar. apply (laco_chamadas voltas (snd (print BemVindo s))).
Qed.

(* ================================================================== *)
(** ** The shell: what it can make of its account *)
(* ================================================================== *)

Lemma _fix_finito (s : bool) (c : N) (e : Z) (d : Decimal) :
  _fix (Finite s c e) = inr d -> exists c' e', d = Finite s c' e'.
Proof.
  unfold _fix. destruct (c =? 0)%N; [intros H; injection H as <-; eauto|].
  destruct (_ >? Etop); [discriminate|].
  destruct (_ <? _); [|intros H; injection H as <-; eauto].
  destruct (ndigits _ >? prec); [|intros H; injection H as <-; eauto].
  destruct (_ >? Etop); [discriminate|]. intros H; injection H as <-; eauto.
Qed.

Lemma saldo_finito_valido (d : Decimal) :
  saldo_valido d -> (exists s c e, d = Finite s c e) ->
  exists c e, d = Finite false c e.
Proof.
  intros Hv (s & c & e & ->). destruct Hv as [-> _]. eauto.
Qed.

Lemma chamar_numero_limitado (ch : Chamada) (c : ContaBancaria) :
  0 <= numero_saques c <= limite_saques_diarios c ->
  0 <= numero_saques (chamar ch c) <= limite_saques_diarios (chamar ch c).
Proof.
  intros Hc. destruct (chamar_limites ch c) as [_ ->].
  destruct ch as [agora v|agora v|]; simpl.
  - fold (estado (depositar agora v c)). now rewrite depositar_numero_saques.
  - fold (estado (sacar agora v c)).
    destruct (sacar_numero_saques agora v c) as [-> | [L ->]]; lia.
  - rewrite obter_extrato_estado. exact Hc.
Qed.

(** A call of the shell keeps the account an account of the shell. *)
Lemma chamar_conta_de_sistema (ch : Chamada) (c : ContaBancaria) :
  chamada_do_sistema ch -> conta_de_sistema c -> conta_de_sistema (chamar ch c).
Proof.
  intros Hch (Hi & Hh & Hf & Hn).
  pose proof (chamar_invariante ch c Hi) as Hi'.
  pose proof (chamar_numero_limitado ch c Hn) as Hn'.
  split; [exact Hi'|]. split; [|split; [|exact Hn']].
  - destruct ch as [agora [s|r]|agora [s|r]|]; simpl in Hch; try contradiction;
      simpl; [| |rewrite obter_extrato_estado; exact Hh].
    + rewrite depositar_eq.
      destruct (_validar_valor_texto_casos s c) as [V | (n & e & V & He)];
        rewrite V; cbn [fst]; [exact Hh|].
      rewrite __le___zero_finito.
      destruct (N.eqb_spec n 0) as [Hz|Hz]; [exact Hh|].
      destruct (__add__ _ _); [exact Hh|]. cbn [snd apos_deposito historico].
      apply Forall_app. split; [exact Hh|]. constructor; [|constructor].
      exists n, e. cbn [valor]. repeat split; lia.
    + rewrite sacar_eq.
      destruct (_validar_valor_texto_casos s c) as [V | (n & e & V & He)];
        rewrite V; cbn [fst]; [exact Hh|].
      rewrite __le___zero_finito.
      destruct (N.eqb_spec n 0) as [Hz|Hz]; [exact Hh|].
      destruct (_ >=? _); [exact Hh|].
      destruct (__gt__ _ (limite_saque c)) as [?|[|]]; try exact Hh.
      destruct (__gt__ _ (saldo c)) as [?|[|]]; try exact Hh.
      destruct (__sub__ _ _); [exact Hh|]. cbn [snd apos_saque historico].
      apply Forall_app. split; [exact Hh|]. constructor; [|constructor].
      exists n, e. cbn [valor]. repeat split; lia.
  - apply saldo_finito_valido; [exact (proj1 Hi')|].
    destruct Hf as (c1 & e1 & Es).
    destruct ch as [agora [s|r]|agora [s|r]|]; simpl in Hch; try contradiction;
      simpl; [| |rewrite obter_extrato_estado; eauto].
    + rewrite depositar_eq.
      destruct (_validar_valor_texto_casos s c) as [V | (n & e & V & He)];
        rewrite V; cbn [fst]; [eauto|].
      destruct (__le__ _ zero) as [?|[|]]; eauto.
      destruct (__add__ _ _) as [?|novo] eqn:Ea; [eauto|].
      cbn [snd apos_deposito saldo].
      rewrite Es in Ea. unfold __add__ in Ea. cbn [_check_nans] in Ea.
      destruct (_fix_finito _ _ _ _ Ea) as (c' & e' & ->). eauto.
    + rewrite sacar_eq.
      destruct (_validar_valor_texto_casos s c) as [V | (n & e & V & He)];
        rewrite V; cbn [fst]; [eauto|].
      destruct (__le__ _ zero) as [?|[|]]; eauto.
      destruct (_ >=? _); [eauto|].
      destruct (__gt__ _ (limite_saque c)) as [?|[|]]; eauto.
      destruct (__gt__ _ (saldo c)) as [?|[|]]; eauto.
      destruct (__sub__ _ _) as [?|novo] eqn:Ea; [eauto|].
      cbn [snd apos_saque saldo].
      rewrite Es in Ea. unfold __sub__, __add__ in Ea.
      cbn [_check_nans copy_negate] in Ea.
      destruct (_fix_finito _ _ _ _ Ea) as (c' & e' & ->). eauto.
Qed.

Lemma sessao_conta_de_sistema (chs : list Chamada) (c : ContaBancaria) :
  Forall chamada_do_sistema chs -> conta_de_sistema c ->
  conta_de_sistema (sessao chs c).
Proof.
  unfold sessao. intros F. revert c.
  induction F as [|ch chs Hch _ IH]; intros c Hc; simpl; [exact Hc|].
  apply IH, chamar_conta_de_sistema; assumption.
Qed.

Lemma conta_padrao_de_sistema : conta_de_sistema conta_padrao.
Proof.
  split; [|split; [|split]].
  - exact (sessao_invariante_conta (VObj "500") 3 conta_padrao [] eq_refl).
  - constructor.
  - exists 0%N, (-2). reflexivity.
  - simpl. lia.
Qed.

Lemma valor_de_texto_duas_casas (h : list Operacao) :
  Forall (fun o => valor_de_texto (valor o)) h ->
  Forall (fun o => duas_casas (valor o) = true) h.
Proof.
  intros H. apply Forall_forall. intros o Ho.
  destruct (proj1 (Forall_forall _ _) H o Ho) as (coef & e & -> & _ & He).
  simpl. apply Z.leb_le. lia.
Qed.

(** X18. Whatever is typed into a new [SistemaBancario], after any number of
    turns its account still has the default limits, a counter between 0 and
    3, only amounts that are finite, positive and with at most two
    fractional digits in its history, and a finite balance that is not
    negative; and while the recorded deposits total less than 10^28
    hundredths the balance is, in hundredths, the recorded deposits minus
    the recorded withdrawals. *)
Theorem conta_do_sistema_novo
  (teclas : list Leitura) (rel : nat -> string) (voltas : nat) :
  let c := conta (snd (executar voltas (sistema_novo teclas rel))) in
  limite_saque c = Finite false 500 0 /\
  limite_saques_diarios c = 3 /\
  0 <= numero_saques c <= 3 /\
  Forall (fun o => valor_de_texto (valor o)) (historico c) /\
  (exists coef e, saldo c = Finite false coef e) /\
  (total_centavos (valores_de DEPOSITO (historico c)) < 10 ^ 28 ->
   0 <= total_centavos (valores_de SAQUE (historico c))
     <= total_centavos (valores_de DEPOSITO (historico c)) /\
   saldo c =
     Finite false
       (Z.to_N (total_centavos (valores_de DEPOSITO (historico c))
                - total_centavos (valores_de SAQUE (historico c)))) (-2)).
Proof.
  intros c.
  destruct (laco_chamadas voltas (snd (print BemVindo (sistema_novo teclas rel))))
    as (chs & F & _ & E).
  change (conta (snd (print BemVindo (sistema_novo teclas rel)))) with conta_padrao in E.
  change (conta (snd (laco voltas (snd (print BemVindo (sistema_novo teclas rel))))))
    with c in E.
  destruct (sessao_conta_de_sistema chs conta_padrao F conta_padrao_de_sistema)
    as ((_ & _ & Hc) & Hh & Hf & Hn).
  destruct (sessao_limites chs conta_padrao) as [El Ed].
  rewrite <- E in *.
  split; [exact El|]. split; [exact Ed|].
  split; [rewrite Ed in Hn; exact Hn|].
  split; [exact Hh|]. split; [exact Hf|].
  intros Hlt. exact (Hc (valor_de_texto_duas_casas _ Hh) Hlt).
Qed.

Lemma conta_do_sistema_novo_witness :
  let c := conta (snd (executar 5
             (sistema_novo [Linha "d"; Linha " 100,5 "; Linha "S"; Linha "20";
                            Linha "s"; Linha "abc"; Linha "q"]
                           (fun _ => "agora"%string)))) in
  0 <= total_centavos (valores_de SAQUE (historico c))
    <= total_centavos (valores_de DEPOSITO (historico c)) /\
  saldo c =
    Finite false
      (Z.to_N (total_centavos (valores_de DEPOSITO (historico c))
               - total_centavos (valores_de SAQUE (historico c)))) (-2).
Proof.
  intro c.
  apply (conta_do_sistema_novo
           [Linha "d"; Linha " 100,5 "; Linha "S"; Linha "20";
            Linha "s"; Linha "abc"; Linha "q"] (fun _ => "agora"%string) 5).
  reflexivity.
Defined.

(* ================================================================== *)
(** ** The shell: what it shows of the limits *)
(* ================================================================== *)

Ltac telas_da_conta :=
  eexists; split;
  [ rewrite <- ?app_assoc; reflexivity
  | unfold tela_do_menu, tela_do_saque, imprime_resposta; cbn [app];
    repeat (constructor; try exact I; try reflexivity) ].

Lemma iteracao_tela (s : Sistema) :
  exists novas,
    tela (snd (iteracao s)) = (tela s ++ novas)%list /\
    Forall (impressao_da_conta (conta s)) novas.
Proof.
  destruct s as [c tk rel n tl]. rewrite iteracao_eq. cbv zeta.
  cbn [tela conta].
  destruct tk as [|[t| |] r]; cbn [snd tela]; try telas_da_conta.
  set (opcao := strip (str_lower t)).
  destruct (String.eqb opcao "d").
  { rewrite _processar_deposito_eq. cbv zeta.
    destruct r as [|[v| |] r'];
      cbn [apos_acao fst snd print tela conta teclado relogio leituras_do_relogio];
      try telas_da_conta.
    destruct (is_empty (strip v)); cbn [apos_acao fst snd tela]; [telas_da_conta|].
    destruct (depositar (rel n) (VStr (strip v)) c) as [[[|] m] c'];
      cbn [fst snd]; telas_da_conta. }
  destruct (String.eqb opcao "s").
  { rewrite _processar_saque_eq. cbv zeta.
    destruct r as [|[v| |] r'];
      cbn [apos_acao fst snd print tela conta teclado relogio leituras_do_relogio];
      try telas_da_conta.
    destruct (is_empty (strip v)); cbn [apos_acao fst snd tela]; [telas_da_conta|].
    destruct (sacar (rel n) (VStr (strip v)) c) as [[[|] m] c'];
      cbn [fst snd]; telas_da_conta. }
  destruct (String.eqb opcao "e").
  { rewrite _processar_extrato_eq.
    destruct (extrato_formata c); cbn [apos_acao fst snd print tela];
      telas_da_conta. }
  destruct (String.eqb opcao "q"); cbn [snd tela]; telas_da_conta.
Qed.

Lemma laco_tela (n : nat) (s : Sistema) :
  conta_de_sistema (conta s) ->
  limite_saque (conta s) = Finite false 500 0 ->
  limite_saques_diarios (conta s) = 3 ->
  Forall impressao_plausivel (tela s) ->
  Forall impressao_plausivel (tela (snd (laco n s))).
Proof.
  revert s. induction n as [|n IH]; intros s Hc Hl Hd Ht; [exact Ht|].
  cbn [laco].
  pose proof (iteracao_passo s) as P. pose proof (iteracao_tela s) as T.
  destruct (iteracao s) as [f s']. cbn [fst snd] in P, T.
  destruct P as (_ & _ & _ & Hconta). destruct T as (novas & Et & Fn).
  assert (Ht' : Forall impressao_plausivel (tela s')).
  { rewrite Et. apply Forall_app. split; [exact Ht|].
    apply Forall_forall. intros p Hp.
    pose proof (proj1 (Forall_forall _ _) Fn p Hp) as Hq.
    destruct Hc as (_ & _ & _ & Hn).
    destruct p; simpl in *; try exact I; subst; [exact Hl | lia]. }
  destruct f; [|exact Ht'].
  apply IH; [| | |exact Ht'].
  - destruct Hconta as [-> | (ch & Hch & ->)];
      [exact Hc | now apply chamar_conta_de_sistema].
  - destruct Hconta as [-> | (ch & Hch & ->)]; [exact Hl|].
    destruct (chamar_limites ch (conta s)) as [-> _]. exact Hl.
  - destruct Hconta as [-> | (ch & Hch & ->)]; [exact Hd|].
    destruct (chamar_limites ch (conta s)) as [_ ->]. exact Hd.
Qed.

(** X19. Whatever is typed into a new [SistemaBancario], the number of
    remaining withdrawals it shows before a withdrawal is never negative and
    never above 3, and the limit per withdrawal it shows is always 500. *)
Theorem limites_mostrados
  (teclas : list Leitura) (rel : nat -> string) (voltas : nat) :
  Forall impressao_plausivel
         (tela (snd (executar voltas (sistema_novo teclas rel)))).
Proof.
  unfold executar. apply laco_tela.
  - exact conta_padrao_de_sistema.
  - reflexivity.
  - reflexivity.
  - repeat constructor.
Qed.
